(** * A shallow embedding of the clustering engine of js-marker-clusterer

    Source: src/markerclusterer.js.  Markers are JavaScript objects
    compared by identity; they are modelled by a [nat] identity.  Their
    mutable fields ([isAdded], and whether [getMap()] is the clusterer's
    map) are kept in a [Flags] store indexed by identity.  Coordinates are
    JavaScript numbers, modelled by [Q].  The Google Maps library
    (LatLngBounds.extend / contains, the projection of the map) and the
    rbush spatial index search are not code of this repository: they are
    section variables. *)

From Stdlib Require Import QArith Qminmax List Bool Arith Lia Permutation.
From Stdlib Require String.
Import String.StringSyntax.
Open Scope string_scope.
Import ListNotations.

Open Scope Q_scope.

(** ** Data model *)

Definition Marker := nat.

Record LatLng := mkLatLng { lat : Q; lng : Q }.

(** [google.maps.LatLngBounds]: south-west and north-east corners. *)
Record LatLngBounds := mkBounds { sw : LatLng; ne : LatLng }.

(** rbush node as built by [getMarkerNode]: [[lat, lng, marker]]. *)
Definition Node := (Q * Q * Marker)%type.

Definition node_marker (n : Node) : Marker := snd n.

(** rbush query rectangle [[minLat, minLng, maxLat, maxLng]]. *)
Definition Rect := (Q * Q * Q * Q)%type.

(** What the clusterer reads from the map during one call: [getBounds()]
    ([None] while the map has no bounds yet), [getZoom()] and the
    projection of [getProjection()]. *)
Record MapView := mkMapView {
  mv_bounds : option LatLngBounds;
  mv_zoom : Q;
  fromLatLngToDivPixel : LatLng -> Q * Q;
  fromDivPixelToLatLng : Q * Q -> LatLng
}.

(** Engine options after the constructor ([this.gridSize], ...). [maxZoom]
    is [None] for [null]. *)
Record Config := mkConfig {
  gridSize : Q;
  minClusterSize : Q;
  maxZoom : option Q;
  averageCenter : bool;
  isClusterable : Marker -> bool
}.

(** Mutable marker fields: [marker.isAdded], and [marker.getMap() == map]. *)
Record Flags := mkFlags {
  isAdded : Marker -> bool;
  onMap : Marker -> bool
}.

(** A [Cluster] object together with the state of its [ClusterIcon]
    ([visible_] and [center]). *)
Record Cluster := mkCluster {
  c_id : nat;
  c_markers : list Marker;
  c_center : option LatLng;
  c_bounds : option LatLngBounds;
  c_iconVisible : bool;
  c_iconCenter : option LatLng
}.

(** [MarkerClusterer] state: [markers_], [clusters_], [ready_], [tree_]
    (the rbush contents), the marker fields, and a counter that gives each
    new [Cluster] object its identity. *)
Record Engine := mkEngine {
  markers_ : list Marker;
  clusters_ : list Cluster;
  ready_ : bool;
  tree_ : list Node;
  flags : Flags;
  nextCluster : nat
}.

Definition upd (f : Marker -> bool) (k : Marker) (b : bool) : Marker -> bool :=
  fun x => if Nat.eqb x k then b else f x.

(** [marker.setMap(m)] for every marker of a list, in order. *)
Definition setMap_each (f : Marker -> bool) (ms : list Marker) (b : bool)
  : Marker -> bool :=
  fold_left (fun g m => upd g m b) ms f.

Definition mem (x : Marker) (l : list Marker) : bool := existsb (Nat.eqb x) l.

Definition Qltb (a b : Q) : bool := negb (Qle_bool b a).

Definition QofNat (n : nat) : Q := inject_Z (Z.of_nat n).

Definition newCluster (id : nat) : Cluster :=
  mkCluster id [] None None false None.

Section Engine.

(** The Google Maps library and rbush, used but not defined by this
    repository. *)
Variable bounds_extend : LatLngBounds -> LatLng -> LatLngBounds.
Variable bounds_contains : LatLngBounds -> LatLng -> bool.
Variable getPosition : Marker -> LatLng.
Variable search : list Node -> Rect -> list Node.

Variable cfg : Config.
Variable v : MapView.

(** [MarkerClusterer.prototype.getExtendedBounds] *)
Definition getExtendedBounds (bounds : LatLngBounds) : LatLngBounds :=
  let tr := ne bounds in
  let bl := sw bounds in
  let '(trx, try) := fromLatLngToDivPixel v tr in
  let trPix := (trx + gridSize cfg, try - gridSize cfg) in
  let '(blx, bly) := fromLatLngToDivPixel v bl in
  let blPix := (blx - gridSize cfg, bly + gridSize cfg) in
  let ne' := fromDivPixelToLatLng v trPix in
  let sw' := fromDivPixelToLatLng v blPix in
  bounds_extend (bounds_extend bounds ne') sw'.

(** [boundsToArray] *)
Definition boundsToArray (b : LatLngBounds) : Rect :=
  (Qmin (lat (ne b)) (lat (sw b)), Qmin (lng (ne b)) (lng (sw b)),
   Qmax (lat (ne b)) (lat (sw b)), Qmax (lng (ne b)) (lng (sw b))).

(** [Cluster.prototype.calculateBounds_] *)
Definition calculateBounds (center : LatLng) : LatLngBounds :=
  getExtendedBounds (mkBounds center center).

(** The test [mz && zoom > mz] of [updateIcon]. *)
Definition maxZoomExceeded (zoom : Q) : bool :=
  match maxZoom cfg with
  | Some mz => negb (Qeq_bool mz 0) && Qltb mz zoom
  | None => false
  end.

(** [Cluster.prototype.updateIcon] *)
Definition updateIcon (fl : Flags) (c : Cluster) : Flags * Cluster :=
  let zoom := mv_zoom v in
  if maxZoomExceeded zoom then
    (mkFlags (isAdded fl) (setMap_each (onMap fl) (c_markers c) true), c)
  else if Qltb (QofNat (length (c_markers c))) (minClusterSize cfg) then
    (fl, mkCluster (c_id c) (c_markers c) (c_center c) (c_bounds c)
                   false (c_iconCenter c))
  else
    (fl, mkCluster (c_id c) (c_markers c) (c_center c) (c_bounds c)
                   true (c_center c)).

(** [Cluster.prototype.isMarkerAlreadyAdded] *)
Definition isMarkerAlreadyAdded (c : Cluster) (m : Marker) : bool :=
  mem m (c_markers c).

(** The new [center_] and [bounds_] of [Cluster.prototype.addMarker]. *)
Definition addMarker_center (c : Cluster) (m : Marker)
  : option LatLng * option LatLngBounds :=
  match c_center c with
  | None =>
      let ctr := getPosition m in (Some ctr, Some (calculateBounds ctr))
  | Some ctr =>
      if averageCenter cfg then
        let l := QofNat (length (c_markers c) + 1) in
        let la := (lat ctr * (l - 1) + lat (getPosition m)) / l in
        let ln := (lng ctr * (l - 1) + lng (getPosition m)) / l in
        let ctr' := mkLatLng la ln in
        (Some ctr', Some (calculateBounds ctr'))
      else (c_center c, c_bounds c)
  end.

(** [Cluster.prototype.addMarker]: the returned boolean, the marker fields
    and the cluster after the call. *)
Definition cluster_addMarker (fl : Flags) (c : Cluster) (m : Marker)
  : bool * Flags * Cluster :=
  if isMarkerAlreadyAdded c m then (false, fl, c) else
  let '(center, bounds) := addMarker_center c m in
  let added := upd (isAdded fl) m true in
  let ms := c_markers c ++ [m] in
  let len := QofNat (length ms) in
  let om1 := if Qltb len (minClusterSize cfg) && negb (onMap fl m)
             then upd (onMap fl) m true else onMap fl in
  let om2 := if Qeq_bool len (minClusterSize cfg)
             then setMap_each om1 ms false else om1 in
  let om3 := if Qle_bool (minClusterSize cfg) len
             then upd om2 m false else om2 in
  let c1 := mkCluster (c_id c) ms center bounds
                      (c_iconVisible c) (c_iconCenter c) in
  let '(fl', c') := updateIcon (mkFlags added om3) c1 in
  (true, fl', c').

(** The inner loop of [createClusters_] over the nodes returned by the
    rbush search. *)
Fixpoint addCandidates (fl : Flags) (c : Cluster) (nodes : list Node)
  : Flags * Cluster :=
  match nodes with
  | [] => (fl, c)
  | n :: rest =>
      let m := node_marker n in
      if isAdded fl m then addCandidates fl c rest
      else if negb (isClusterable cfg m) then addCandidates fl c rest
      else
        let '(_, fl', c') := cluster_addMarker fl c m in
        addCandidates fl' c' rest
  end.

(** The outer loop of [createClusters_] over [markers_], with the extended
    map bounds [mapBounds] and the rbush contents [tree]. *)
Fixpoint createLoop (mapBounds : LatLngBounds) (tree : list Node)
  (fl : Flags) (cs : list Cluster) (next : nat) (ms : list Marker)
  : Flags * list Cluster * nat :=
  match ms with
  | [] => (fl, cs, next)
  | m :: rest =>
      if isAdded fl m then createLoop mapBounds tree fl cs next rest
      else
        let pos := getPosition m in
        if negb (bounds_contains mapBounds pos)
        then createLoop mapBounds tree fl cs next rest
        else if negb (isClusterable cfg m)
        then createLoop mapBounds tree fl cs next rest
        else
          let '(_, fl1, c1) := cluster_addMarker fl (newCluster next) m in
          let bounds := getExtendedBounds (mkBounds pos pos) in
          let nodes := search tree (boundsToArray bounds) in
          let '(fl2, c2) := addCandidates fl1 c1 nodes in
          createLoop mapBounds tree fl2 (cs ++ [c2]) (S next) rest
  end.

(** The viewport of a pass: [getExtendedBounds] of a copy of
    [map.getBounds()]. *)
Definition passBounds (mb : LatLngBounds) : LatLngBounds :=
  getExtendedBounds (mkBounds (sw mb) (ne mb)).

(** [MarkerClusterer.prototype.createClusters_].  [None] is the TypeError
    thrown by [mapBounds.getSouthWest()] when [getBounds()] is
    undefined. *)
Definition createClusters_ (e : Engine) : option Engine :=
  if negb (ready_ e) then Some e else
  match mv_bounds v with
  | None => None
  | Some mb =>
      let '(fl, cs, nx) :=
        createLoop (passBounds mb) (tree_ e) (flags e) (clusters_ e)
                   (nextCluster e) (markers_ e) in
      Some (mkEngine (markers_ e) cs (ready_ e) (tree_ e) fl nx)
  end.

(** [MarkerClusterer.prototype.redraw] *)
Definition redraw (e : Engine) : option Engine := createClusters_ e.

End Engine.

(** ** Engine operations that do not read the map *)

(** [MarkerClusterer.prototype.resetViewport]: every cluster is removed
    (its icon leaves the map), every tracked marker gets [isAdded = false]
    and, with [reset], [setMap(null)]. *)
Definition resetViewport (reset : bool) (e : Engine) : Engine :=
  let fl := flags e in
  let added := fold_left (fun f m => upd f m false) (markers_ e) (isAdded fl) in
  let om := if reset then setMap_each (onMap fl) (markers_ e) false
            else onMap fl in
  mkEngine (markers_ e) [] (ready_ e) (tree_ e) (mkFlags added om)
           (nextCluster e).

(** [MarkerClusterer.prototype.pushMarkerTo_] *)
Definition pushMarkerTo_ (e : Engine) (m : Marker) : Engine :=
  let fl := flags e in
  mkEngine (markers_ e ++ [m]) (clusters_ e) (ready_ e) (tree_ e)
           (mkFlags (upd (isAdded fl) m false) (onMap fl)) (nextCluster e).

Definition setTree (e : Engine) (t : list Node) : Engine :=
  mkEngine (markers_ e) (clusters_ e) (ready_ e) t (flags e) (nextCluster e).

(** [Array.prototype.indexOf] on markers. *)
Fixpoint indexOf (m : Marker) (l : list Marker) : option nat :=
  match l with
  | [] => None
  | x :: r => if Nat.eqb x m then Some 0%nat
              else option_map S (indexOf m r)
  end.

(** [Array.prototype.splice(i, 1)] *)
Fixpoint splice1 (i : nat) (l : list Marker) : list Marker :=
  match l, i with
  | [], _ => []
  | _ :: r, O => r
  | x :: r, S j => x :: splice1 j r
  end.

Definition Qeqb_struct (a b : Q) : bool :=
  Z.eqb (Qnum a) (Qnum b) && Pos.eqb (Qden a) (Qden b).

Definition node_eqb (a b : Node) : bool :=
  match a, b with
  | (la, ga, ma), (lb, gb, mb) =>
      Qeqb_struct la lb && Qeqb_struct ga gb && Nat.eqb ma mb
  end.

(** rbush [remove(item)]: drops the first stored node equal to [item]. *)
Fixpoint tree_remove (n : Node) (t : list Node) : list Node :=
  match t with
  | [] => []
  | x :: r => if node_eqb x n then r else x :: tree_remove n r
  end.

(** The loop of [removeMarker_] over [tree_.all()]. *)
Definition removeFromTree (m : Marker) (t : list Node) : list Node :=
  fold_left (fun acc n => if Nat.eqb (node_marker n) m
                          then tree_remove n acc else acc) t t.

(** [MarkerClusterer.prototype.removeMarker_] *)
Definition removeMarker_ (m : Marker) (e : Engine) : bool * Engine :=
  match indexOf m (markers_ e) with
  | None => (false, e)
  | Some i =>
      let fl := flags e in
      (true, mkEngine (splice1 i (markers_ e)) (clusters_ e) (ready_ e)
                      (removeFromTree m (tree_ e))
                      (mkFlags (isAdded fl) (upd (onMap fl) m false))
                      (nextCluster e))
  end.

(** [MarkerClusterer.prototype.removeCluster]: the first cluster with the
    given identity is removed from [clusters_]. *)
Fixpoint removeClusterFrom (id : nat) (cs : list Cluster) : list Cluster :=
  match cs with
  | [] => []
  | c :: r => if Nat.eqb (c_id c) id then r else c :: removeClusterFrom id r
  end.

Definition removeCluster (id : nat) (e : Engine) : Engine :=
  mkEngine (markers_ e) (removeClusterFrom id (clusters_ e)) (ready_ e)
           (tree_ e) (flags e) (nextCluster e).

Definition emptyEngine : Engine :=
  mkEngine [] [] false [] (mkFlags (fun _ => false) (fun _ => false)) 0.

Definition initEngine (fl : Flags) : Engine := mkEngine [] [] false [] fl 0.

(** ** Engine operations that may run a clustering pass *)

Section Ops.

Variable bounds_extend : LatLngBounds -> LatLng -> LatLngBounds.
Variable bounds_contains : LatLngBounds -> LatLng -> bool.
Variable getPosition : Marker -> LatLng.
Variable search : list Node -> Rect -> list Node.
Variable cfg : Config.
Variable v : MapView.

Let pass := createClusters_ bounds_extend bounds_contains getPosition search cfg v.

(** [getMarkerNode] *)
Definition getMarkerNode (m : Marker) : Node :=
  let pos := getPosition m in (lat pos, lng pos, m).

(** [MarkerClusterer.prototype.addMarker] *)
Definition addMarker (m : Marker) (nodraw : bool) (e : Engine) : option Engine :=
  let e1 := pushMarkerTo_ e m in
  let e2 := setTree e1 (tree_ e1 ++ [getMarkerNode m]) in
  if negb nodraw then pass e2 else Some e2.

(** [MarkerClusterer.prototype.addMarkers]: [tree_.load] adds the nodes
    of all markers at once. *)
Definition addMarkers (ms : list Marker) (nodraw : bool) (e : Engine)
  : option Engine :=
  let e1 := fold_left pushMarkerTo_ ms e in
  let e2 := setTree e1 (tree_ e1 ++ map getMarkerNode ms) in
  if negb nodraw then pass e2 else Some e2.

(** [MarkerClusterer.prototype.removeMarker] *)
Definition removeMarker (m : Marker) (opt_nodraw : bool) (e : Engine)
  : option (bool * Engine) :=
  let '(removed, e1) := removeMarker_ m e in
  if negb opt_nodraw && removed then
    option_map (fun e2 => (true, e2)) (pass (resetViewport false e1))
  else Some (false, e1).

(** The loop of [removeMarkers]: [removed = removed || r]. *)
Definition removeMarkers_loop (ms : list Marker) (e : Engine) : bool * Engine :=
  fold_left (fun acc m => let '(removed, e) := acc in
                          let '(r, e') := removeMarker_ m e in
                          (removed || r, e')) ms (false, e).

(** [MarkerClusterer.prototype.removeMarkers] *)
Definition removeMarkers (ms : list Marker) (nodraw : bool) (e : Engine)
  : option (bool * Engine) :=
  let '(removed, e1) := removeMarkers_loop ms e in
  if negb nodraw && removed then
    option_map (fun e2 => (true, e2)) (pass (resetViewport false e1))
  else Some (false, e1).

(** [MarkerClusterer.prototype.clearMarkers] *)
Definition clearMarkers (nodraw : bool) (e : Engine) : option Engine :=
  let e1 := resetViewport true e in
  let e2 := mkEngine [] (clusters_ e1) (ready_ e1) [] (flags e1)
                     (nextCluster e1) in
  if negb nodraw then pass e2 else Some e2.

(** [MarkerClusterer.prototype.repaint] *)
Definition repaint (e : Engine) : option Engine := pass (resetViewport false e).

(** [MarkerClusterer.prototype.setReady_], called by [onAdd] with [true]. *)
Definition setReady_ (ready : bool) (e : Engine) : option Engine :=
  if negb (ready_ e) then
    pass (mkEngine (markers_ e) (clusters_ e) ready (tree_ e) (flags e)
                   (nextCluster e))
  else Some e.

End Ops.

(** ** A concrete map used to run the model on examples

    Bounds without antimeridian crossing, a projection where one pixel is
    one degree (x grows with the longitude, y towards the south), and an
    rbush search returning the nodes of the closed query rectangle in
    storage order. *)

Definition ex_bounds_extend (b : LatLngBounds) (p : LatLng) : LatLngBounds :=
  mkBounds (mkLatLng (Qmin (lat (sw b)) (lat p)) (Qmin (lng (sw b)) (lng p)))
           (mkLatLng (Qmax (lat (ne b)) (lat p)) (Qmax (lng (ne b)) (lng p))).

Definition ex_bounds_contains (b : LatLngBounds) (p : LatLng) : bool :=
  Qle_bool (lat (sw b)) (lat p) && Qle_bool (lat p) (lat (ne b)) &&
  Qle_bool (lng (sw b)) (lng p) && Qle_bool (lng p) (lng (ne b)).

Definition ex_search (t : list Node) (r : Rect) : list Node :=
  let '(a, b, c, d) := r in
  filter (fun n => let '(la, ln, _) := n in
                   Qle_bool a la && Qle_bool la c &&
                   Qle_bool b ln && Qle_bool ln d) t.

Definition ex_view (b : option LatLngBounds) (zoom : Q) : MapView :=
  mkMapView b zoom (fun p => (lng p, - lat p)) (fun px => mkLatLng (- snd px) (fst px)).

(** Marker [n] sits at latitude 0 and longitude [n]. *)
Definition ex_position (m : Marker) : LatLng := mkLatLng 0 (QofNat m).

Definition ex_cfg (grid minSize : Q) (mz : option Q) (avg : bool)
  (clusterable : Marker -> bool) : Config :=
  mkConfig grid minSize mz avg clusterable.

Definition ex_box : LatLngBounds := mkBounds (mkLatLng (-10) (-10)) (mkLatLng 10 10).

(** ** The options of the [MarkerClusterer] constructor

    JavaScript values as far as the constructor looks at them: [||]
    returns its left operand when it is truthy, its right one otherwise. *)

Inductive JSVal :=
| JUndefined
| JNull
| JBool (b : bool)
| JNum (q : Q)
| JNaN
| JStr (s : String.string)
| JObj (id : nat)
| JFun (id : nat).

Definition truthy (x : JSVal) : bool :=
  match x with
  | JUndefined | JNull | JNaN => false
  | JBool b => b
  | JNum q => negb (Qeq_bool q 0)
  | JStr s => negb (String.eqb s String.EmptyString)
  | JObj _ | JFun _ => true
  end.

Definition js_or (a b : JSVal) : JSVal := if truthy a then a else b.

(** An options object: its own properties; a missing one reads as
    [undefined]. *)
Definition JSObject := list (String.string * JSVal).

Fixpoint get (o : JSObject) (k : String.string) : JSVal :=
  match o with
  | [] => JUndefined
  | (k', x) :: r => if String.eqb k k' then x else get r k
  end.

(** The two default functions of the constructor. *)
Definition defaultIsClusterable : JSVal := JFun 0.
Definition defaultIconGenerator : JSVal := JFun 1.

Record ClustererFields := mkFields {
  f_gridSize : JSVal;
  f_minClusterSize : JSVal;
  f_maxZoom : JSVal;
  f_zoomOnClick : JSVal;
  f_averageCenter : JSVal;
  f_isClusterable : JSVal;
  f_iconGenerator : JSVal;
  f_clusterWidth : JSVal;
  f_clusterHeight : JSVal;
  f_anchor : JSVal
}.

(** Lines 59-68 of the [MarkerClusterer] constructor. *)
Definition constructorFields (options : JSObject) : ClustererFields :=
  mkFields
    (js_or (get options "gridSize") (JNum 60))
    (js_or (get options "minimumClusterSize") (JNum 2))
    (js_or (get options "maxZoom") JNull)
    (js_or (get options "zoomOnClick") (JBool true))
    (js_or (get options "averageCenter") (JBool false))
    (js_or (get options "isClusterable") defaultIsClusterable)
    (js_or (get options "iconGenerator") defaultIconGenerator)
    (get options "width")
    (get options "height")
    (get options "anchor").

(** ** The clustering pass as the specification describes it

    Written from the specification's words (section 4.4), to be compared
    with [createClusters_]: each marker visited in registration order that
    is not clustered, lies in the extended viewport and is eligible seeds a
    cluster; the cluster is the seed followed, once each and in search
    order, by the markers of the search around the seed that were not
    clustered when the seed was visited and are eligible. *)

Fixpoint dedup_aux (seen : list Marker) (l : list Marker) : list Marker :=
  match l with
  | [] => []
  | x :: r => if mem x seen then dedup_aux seen r else x :: dedup_aux (x :: seen) r
  end.

Definition dedup (l : list Marker) : list Marker := dedup_aux [] l.

Section SpecPass.

Variable bounds_extend : LatLngBounds -> LatLng -> LatLngBounds.
Variable bounds_contains : LatLngBounds -> LatLng -> bool.
Variable getPosition : Marker -> LatLng.
Variable search : list Node -> Rect -> list Node.
Variable cfg : Config.
Variable v : MapView.

(** The markers found by the search around [seed]. *)
Definition seedSearch (tree : list Node) (seed : Marker) : list Marker :=
  let pos := getPosition seed in
  map node_marker
      (search tree (boundsToArray (getExtendedBounds bounds_extend cfg v
                                                     (mkBounds pos pos)))).

Definition spec_members (clustered : Marker -> bool) (tree : list Node)
  (seed : Marker) : list Marker :=
  seed :: dedup (filter (fun x => negb (clustered x) && isClusterable cfg x
                                  && negb (Nat.eqb x seed))
                        (seedSearch tree seed)).

(** The member lists of the clusters created, in creation order, and the
    clustered flags afterwards. *)
Fixpoint spec_pass (viewport : LatLngBounds) (tree : list Node)
  (clustered : Marker -> bool) (ms : list Marker)
  : list (list Marker) * (Marker -> bool) :=
  match ms with
  | [] => ([], clustered)
  | m :: rest =>
      if negb (clustered m) && bounds_contains viewport (getPosition m)
         && isClusterable cfg m
      then
        let members := spec_members clustered tree m in
        let '(cs, fl) :=
          spec_pass viewport tree (fun x => clustered x || mem x members) rest in
        (members :: cs, fl)
      else spec_pass viewport tree clustered rest
  end.

End SpecPass.

(** ** Reachable engine states *)

(** Number of clusters of [cs] that have [x] as a member. *)
Definition cnt (cs : list Cluster) (x : Marker) : nat :=
  length (filter (fun c => mem x (c_markers c)) cs).

(** Every tracked marker with [isAdded] set is a member of exactly one
    active cluster, every other tracked marker of none. *)
Definition membershipInv (e : Engine) : Prop :=
  forall x, In x (markers_ e) ->
    cnt (clusters_ e) x = if isAdded (flags e) x then 1%nat else 0%nat.

Section Reach.

Variable bounds_extend : LatLngBounds -> LatLng -> LatLngBounds.
Variable bounds_contains : LatLngBounds -> LatLng -> bool.
Variable getPosition : Marker -> LatLng.
Variable search : list Node -> Rect -> list Node.
Variable cfg : Config.

Let B := bounds_extend.
Let C := bounds_contains.
Let P := getPosition.
Let S := search.

(** States reached from a new clusterer through the public operations
    (and the [onAdd] callback of the map), the map view being arbitrary at
    each call.  A marker is added only when it is a member of no active
    cluster: registration resets the clustered flag, so re-adding a member
    lets the next pass put it in a second cluster.  [removeCluster] is not
    among the operations: it drops a cluster without resetting its
    members' flags, unlike [resetViewport] and [Cluster.removeMarker]. *)
Inductive reachable : Engine -> Prop :=
| r_init fl : reachable (initEngine fl)
| r_addMarker e v m nodraw e' :
    reachable e -> cnt (clusters_ e) m = 0%nat ->
    addMarker B C P S cfg v m nodraw e = Some e' -> reachable e'
| r_addMarkers e v ms nodraw e' :
    reachable e -> (forall m, In m ms -> cnt (clusters_ e) m = 0%nat) ->
    addMarkers B C P S cfg v ms nodraw e = Some e' -> reachable e'
| r_removeMarker e v m nodraw b e' :
    reachable e -> removeMarker B C P S cfg v m nodraw e = Some (b, e') ->
    reachable e'
| r_removeMarkers e v ms nodraw b e' :
    reachable e -> removeMarkers B C P S cfg v ms nodraw e = Some (b, e') ->
    reachable e'
| r_redraw e v e' :
    reachable e -> redraw B C P S cfg v e = Some e' -> reachable e'
| r_repaint e v e' :
    reachable e -> repaint B C P S cfg v e = Some e' -> reachable e'
| r_resetViewport e reset :
    reachable e -> reachable (resetViewport reset e)
| r_clearMarkers e v nodraw e' :
    reachable e -> clearMarkers B C P S cfg v nodraw e = Some e' ->
    reachable e'
| r_onAdd e v e' :
    reachable e -> setReady_ B C P S cfg v true e = Some e' -> reachable e'.

End Reach.

(** ** Sequences of [Cluster.addMarker] calls *)

(** [cluster.addMarker(m)] for each marker of [ms] in turn. *)
Fixpoint cluster_addAll
  (bounds_extend : LatLngBounds -> LatLng -> LatLngBounds)
  (getPosition : Marker -> LatLng) (cfg : Config) (v : MapView)
  (fl : Flags) (c : Cluster) (ms : list Marker) : Flags * Cluster :=
  match ms with
  | [] => (fl, c)
  | m :: rest =>
      let '(_, fl', c') := cluster_addMarker bounds_extend getPosition cfg v fl c m in
      cluster_addAll bounds_extend getPosition cfg v fl' c' rest
  end.

(** The cluster's [center_] is the point ([a], [b]) (up to [Qeq]). *)
Definition centerIs (c : Cluster) (a b : Q) : Prop :=
  match c_center c with
  | Some p => lat p == a /\ lng p == b
  | None => False
  end.

(** ** Further parts of the clusterer *)

(** [MarkerClusterer.prototype.getTotalMarkers] *)
Definition getTotalMarkers (e : Engine) : nat := length (markers_ e).

(** [MarkerClusterer.prototype.getMarkerCluster]: [None] is [null]. *)
Definition getMarkerCluster (e : Engine) (m : Marker) : option Cluster :=
  if negb (isAdded (flags e) m) then None
  else find (fun c => isMarkerAlreadyAdded c m) (clusters_ e).

(** [Cluster.prototype.removeMarker]: the returned boolean, the marker
    fields and the cluster after the call. *)
Definition cluster_removeMarker (fl : Flags) (c : Cluster) (m : Marker)
  : bool * Flags * Cluster :=
  match indexOf m (c_markers c) with
  | None => (false, fl, c)
  | Some i =>
      (true, mkFlags (upd (isAdded fl) m false) (onMap fl),
       mkCluster (c_id c) (splice1 i (c_markers c)) (c_center c) (c_bounds c)
                 (c_iconVisible c) (c_iconCenter c))
  end.

(** One step of the loop of [removeMarkers]. *)
Definition removeLoopStep (acc : bool * Engine) (m : Marker) : bool * Engine :=
  let '(removed, e) := acc in
  let '(r, e') := removeMarker_ m e in
  (removed || r, e').

Section MapBounds.

Variable bounds_extend : LatLngBounds -> LatLng -> LatLngBounds.
Variable getPosition : Marker -> LatLng.
(** [new google.maps.LatLngBounds()] (and [new LatLngBounds(null, null)]):
    the empty bounds. *)
Variable emptyBounds : LatLngBounds.

(** [Cluster.prototype.getBounds] *)
Definition cluster_getBounds (c : Cluster) : LatLngBounds :=
  let b0 := match c_center c with
            | Some ctr => mkBounds ctr ctr
            | None => emptyBounds
            end in
  fold_left (fun b m => bounds_extend b (getPosition m)) (c_markers c) b0.

(** [MarkerClusterer.prototype.fitMapToMarkers]: the bounds passed to
    [map.fitBounds]. *)
Definition fitMapToMarkers (e : Engine) : LatLngBounds :=
  fold_left (fun b m => bounds_extend b (getPosition m)) (markers_ e) emptyBounds.

(** [ClusterIcon.prototype.triggerClusterClick]: after triggering
    [clusterclick], the bounds passed to [map.fitBounds], if any;
    [zoomOnClick] is the clusterer's field. *)
Definition triggerClusterClick (fields : ClustererFields) (c : Cluster)
  : option LatLngBounds :=
  if truthy (f_zoomOnClick fields) then Some (cluster_getBounds c) else None.

End MapBounds.

(** ** Anchors and the position of a cluster icon *)

Definition xalign_LEFT : Z := 0.
Definition xalign_CENTER : Z := 1.
Definition xalign_RIGHT : Z := 2.
Definition yalign_TOP : Z := 0.
Definition yalign_CENTER : Z := 16.
Definition yalign_BOTTOM : Z := 32.

Definition TOP_LEFT : Z := Z.lor xalign_LEFT yalign_TOP.
Definition TOP : Z := Z.lor xalign_CENTER yalign_TOP.
Definition TOP_RIGHT : Z := Z.lor xalign_RIGHT yalign_TOP.
Definition CENTER_LEFT : Z := Z.lor xalign_LEFT yalign_CENTER.
Definition CENTER : Z := Z.lor xalign_CENTER yalign_CENTER.
Definition CENTER_RIGHT : Z := Z.lor xalign_RIGHT yalign_CENTER.
Definition BOTTOM_LEFT : Z := Z.lor xalign_LEFT yalign_BOTTOM.
Definition BOTTOM : Z := Z.lor xalign_CENTER yalign_BOTTOM.
Definition BOTTOM_RIGHT : Z := Z.lor xalign_RIGHT yalign_BOTTOM.

(** JavaScript's [a & mask] used as a condition. *)
Definition bitTest (a mask : Z) : bool := negb (Z.eqb (Z.land a mask) 0).

(** [ClusterIcon.prototype.getPosFromLatLng_].  The icon's [width] and
    [height] are numbers ([|| 0] leaves a number unchanged); its [anchor]
    is [undefined] ([None]) or an integer, which [||] replaces by
    [CENTER] when it is 0. *)
Definition getPosFromLatLng_ (v : MapView) (latlng : LatLng)
  (width height : Q) (anchor : option Z) : Q * Q :=
  let '(x0, y0) := fromLatLngToDivPixel v latlng in
  let a := match anchor with
           | Some a => if Z.eqb a 0 then CENTER else a
           | None => CENTER
           end in
  let x1 := if bitTest a xalign_CENTER then x0 - width / 2 else x0 in
  let x2 := if bitTest a xalign_RIGHT then x1 - width else x1 in
  let y1 := if bitTest a yalign_CENTER then y0 - height / 2 else y0 in
  let y2 := if bitTest a yalign_BOTTOM then y1 - height else y1 in
  (x2, y2).

(** ** The properties of a [ClusterIcon] object and [createCss] *)

(** An own property written on an object. *)
Definition setProp (o : JSObject) (k : String.string) (x : JSVal) : JSObject :=
  (k, x) :: o.

(** The properties the [ClusterIcon] constructor writes, then the ones the
    [Cluster] constructor writes on its icon ([width] and [height] only when
    both options are truthy, [anchor] when it is truthy).  [cluster] and
    [map] are the objects passed. *)
Definition newClusterIcon (fields : ClustererFields) (cluster map : JSVal)
  : JSObject :=
  let o := [("width", JNum 0); ("height", JNum 0); ("visible_", JBool false);
            ("div_", JNull); ("map_", map); ("center", JNull);
            ("iconGenerator", f_iconGenerator fields); ("cluster_", cluster)] in
  let o := if truthy (f_clusterWidth fields) && truthy (f_clusterHeight fields)
           then setProp (setProp o "width" (f_clusterWidth fields))
                        "height" (f_clusterHeight fields)
           else o in
  if truthy (f_anchor fields) then setProp o "anchor" (f_anchor fields) else o.

(** The writes other code makes on an icon: [updateIcon] sets [center],
    [show] and [hide] set [visible_], [onAdd] and [onRemove] set [div_]. *)
Inductive IconWrite :=
| SetCenter (c : JSVal)
| Show
| Hide
| SetDiv (d : JSVal).

Definition iconWrite (o : JSObject) (w : IconWrite) : JSObject :=
  match w with
  | SetCenter c => setProp o "center" c
  | Show => setProp o "visible_" (JBool true)
  | Hide => setProp o "visible_" (JBool false)
  | SetDiv d => setProp o "div_" d
  end.

Section Css.

(** JavaScript's conversion of a number to a string. *)
Variable numToString : Q -> String.string.
(** The source text of a function. *)
Variable funToString : nat -> String.string.

(** [String(x)] *)
Definition jsToString (x : JSVal) : String.string :=
  match x with
  | JUndefined => "undefined"
  | JNull => "null"
  | JBool true => "true"
  | JBool false => "false"
  | JNum q => numToString q
  | JNaN => "NaN"
  | JStr s => s
  | JObj _ => "[object Object]"
  | JFun f => funToString f
  end.

Local Infix "+s" := String.append (at level 60, right associativity).

(** [ClusterIcon.prototype.createCss] on the icon [o]; [pos] is [(x, y)]. *)
Definition createCss (o : JSObject) (pos : Q * Q) : String.string :=
  "cursor:pointer; position:absolute; top:" +s numToString (snd pos) +s
  "px; left:" +s numToString (fst pos) +s "px;" +s
  "height:" +s jsToString (get o "height_") +s "px; width:" +s
  jsToString (get o "width_") +s "px;".

End Css.

(** ** The constructor and the map listeners *)

(** The [options] argument: [undefined], [null], another primitive, or an
    object with its own properties. *)
Inductive OptionsArg :=
| OptUndefined
| OptNull
| OptPrim
| OptObj (o : JSObject).

Section Listeners.

Variable bounds_extend : LatLngBounds -> LatLng -> LatLngBounds.
Variable bounds_contains : LatLngBounds -> LatLng -> bool.
Variable getPosition : Marker -> LatLng.
Variable search : list Node -> Rect -> list Node.
(** The engine configuration the constructor's fields denote. *)
Variable cfg : Config.

(** [new MarkerClusterer(map, markers, options)] while the map has not yet
    called [onAdd]: [None] is the TypeError of [options.maxMarkers] on
    [undefined] or [null]; [markers] is [None] for a missing array; [fl]
    are the markers' fields before the call. *)
Definition newMarkerClusterer (v : MapView) (markers : option (list Marker))
  (options : OptionsArg) (fl : Flags) : option (ClustererFields * Engine) :=
  match options with
  | OptUndefined | OptNull => None
  | _ =>
      let o := match options with OptObj o => o | _ => [] end in
      let e0 := initEngine fl in
      match markers with
      | Some ms =>
          if negb (Nat.eqb (length ms) 0) then
            option_map (fun e => (constructorFields o, e))
              (addMarkers bounds_extend bounds_contains getPosition search cfg v
                 ms false e0)
          else Some (constructorFields o, e0)
      | None => Some (constructorFields o, e0)
      end
  end.

(** The [zoom_changed] listener: [zoom != zoomChanged] compares a number
    with a boolean, which JavaScript converts to 0 or 1. *)
Definition onZoomChanged (zoom : Q) (zoomChanged : bool) : bool :=
  if negb (Qeq_bool zoom (if zoomChanged then 1 else 0)) then true
  else zoomChanged.

Inductive MapEvent :=
| ZoomChanged (zoom : Q)
| Idle (v : MapView).

(** One map event; an exception thrown by the [idle] listener leaves the
    state its call had reached (after [resetViewport] for [repaint]). *)
Definition onMapEvent (st : bool * Engine) (ev : MapEvent) : bool * Engine :=
  let '(zc, e) := st in
  match ev with
  | ZoomChanged z => (onZoomChanged z zc, e)
  | Idle v =>
      if zc then
        let e1 := resetViewport false e in
        match createClusters_ bounds_extend bounds_contains getPosition search
                cfg v e1 with
        | Some e2 => (zc, e2)
        | None => (zc, e1)
        end
      else
        match createClusters_ bounds_extend bounds_contains getPosition search
                cfg v e with
        | Some e2 => (zc, e2)
        | None => (zc, e)
        end
  end.

Definition runMapEvents (st : bool * Engine) (evs : list MapEvent) : bool * Engine :=
  fold_left onMapEvent evs st.

End Listeners.

Definition nonzeroZoom (ev : MapEvent) : bool :=
  match ev with
  | ZoomChanged z => negb (Qeq_bool z 0)
  | Idle _ => false
  end.

(** ** Example data

    Marker fields all unset, a map view on [ex_box], and configurations
    used to run the embedding on concrete inputs. *)

Definition ex_fl : Flags := mkFlags (fun _ => false) (fun _ => false).

Definition ex_viewBox (zoom : Q) : MapView := ex_view (Some ex_box) zoom.

(** Grid 2, clusters of at least 2, no maximal zoom, marker 5 not
    clusterable. *)
Definition ex_cfg2 : Config :=
  ex_cfg 2 2 None false (fun m => negb (Nat.eqb m 5)).

(** A ready clusterer tracking markers 1 and 2, none clustered yet. *)
Definition ex_engine (ready : bool) : Engine :=
  mkEngine [1; 2]%nat [] ready
           (map (getMarkerNode ex_position) [1; 2]%nat) ex_fl 0.

Definition ex_redraw : Engine -> option Engine :=
  redraw ex_bounds_extend ex_bounds_contains ex_position ex_search ex_cfg2
         (ex_viewBox 5).

Definition ex_createClusters (v : MapView) : Engine -> option Engine :=
  createClusters_ ex_bounds_extend ex_bounds_contains ex_position ex_search
                  ex_cfg2 v.

(** The clusterer after [onAdd] on a new one, then [addMarkers([1; 5])]. *)
Definition ex_ready : Engine :=
  match setReady_ ex_bounds_extend ex_bounds_contains ex_position ex_search
          ex_cfg2 (ex_viewBox 5) true (initEngine ex_fl) with
  | Some e => e | None => initEngine ex_fl
  end.

Definition ex_added : Engine :=
  match addMarkers ex_bounds_extend ex_bounds_contains ex_position ex_search
          ex_cfg2 (ex_viewBox 5) [1; 5]%nat false ex_ready with
  | Some e => e | None => ex_ready
  end.

(** A cluster of markers 1 and 2 whose icon is shown. *)
Definition ex_shown_cluster : Cluster :=
  mkCluster 0 [1; 2]%nat (Some (ex_position 1%nat)) None true
            (Some (ex_position 1%nat)).

(** * Theorems *)

(** ** The ready gate and undefined map bounds *)

Section Gate.

Variable bounds_extend : LatLngBounds -> LatLng -> LatLngBounds.
Variable bounds_contains : LatLngBounds -> LatLng -> bool.
Variable getPosition : Marker -> LatLng.
Variable search : list Node -> Rect -> list Node.
Variable cfg : Config.

Lemma resetViewport_ready : forall reset e,
  ready_ (resetViewport reset e) = ready_ e.
Proof. reflexivity. Qed.

(** C9: while [ready_] is false, a clustering pass, reached through
    [redraw] or as the pass of [repaint], returns at once and leaves the
    state it is given unchanged (clusters, markers, marker fields and
    index). *)
Theorem createClusters_skipped_until_ready : forall v e,
  ready_ e = false ->
  createClusters_ bounds_extend bounds_contains getPosition search cfg v e = Some e
  /\ redraw bounds_extend bounds_contains getPosition search cfg v e = Some e
  /\ repaint bounds_extend bounds_contains getPosition search cfg v e
     = Some (resetViewport false e).
Proof.
  intros v e Hr. unfold repaint, redraw, createClusters_.
  rewrite resetViewport_ready, Hr. auto.
Qed.

(** C8 (as amended): with undefined map bounds, a pass requested before
    [ready_] is set is skipped; once [ready_] is set the pass reads the
    bounds without a guard and throws. *)
Theorem createClusters_undefined_bounds : forall v e,
  mv_bounds v = None ->
  (ready_ e = false ->
   createClusters_ bounds_extend bounds_contains getPosition search cfg v e = Some e)
  /\ (ready_ e = true ->
   createClusters_ bounds_extend bounds_contains getPosition search cfg v e = None).
Proof.
  intros v e Hb. unfold createClusters_. rewrite Hb.
  split; intros Hr; rewrite Hr; reflexivity.
Qed.

End Gate.

(** ** Constructor options *)

(** C10: a falsy value given for an option that has a default is replaced
    by the default: [zoomOnClick: false] gives [true], [minimumClusterSize:
    0] gives 2, [gridSize: 0] gives 60, [maxZoom: 0] gives [null]. *)
Theorem constructor_falsy_options_defaulted : forall options : JSObject,
  (truthy (get options "gridSize") = false ->
     f_gridSize (constructorFields options) = JNum 60)
  /\ (truthy (get options "minimumClusterSize") = false ->
     f_minClusterSize (constructorFields options) = JNum 2)
  /\ (truthy (get options "maxZoom") = false ->
     f_maxZoom (constructorFields options) = JNull)
  /\ (truthy (get options "zoomOnClick") = false ->
     f_zoomOnClick (constructorFields options) = JBool true)
  /\ (truthy (get options "averageCenter") = false ->
     f_averageCenter (constructorFields options) = JBool false)
  /\ (truthy (get options "isClusterable") = false ->
     f_isClusterable (constructorFields options) = defaultIsClusterable)
  /\ (truthy (get options "iconGenerator") = false ->
     f_iconGenerator (constructorFields options) = defaultIconGenerator)
  /\ truthy (f_zoomOnClick (constructorFields options)) = true.
Proof.
  intros options. unfold constructorFields, js_or; cbn [f_gridSize
    f_minClusterSize f_maxZoom f_zoomOnClick f_averageCenter f_isClusterable
    f_iconGenerator].
  repeat split; try (intros H; rewrite H; reflexivity).
  destruct (truthy (get options "zoomOnClick")) eqn:E; [exact E | reflexivity].
Qed.

(** ** [Cluster.addMarker] and [Cluster.updateIcon] *)

Lemma QofNat_le : forall a b, Qle_bool (QofNat a) (QofNat b) = Nat.leb a b.
Proof.
  intros a b. unfold Qle_bool, QofNat, inject_Z; cbn [Qnum Qden].
  rewrite !Z.mul_1_r. destruct (Nat.leb_spec a b).
  - apply Z.leb_le. lia.
  - apply Z.leb_gt. lia.
Qed.

Lemma QofNat_eq : forall a b, Qeq_bool (QofNat a) (QofNat b) = Nat.eqb a b.
Proof.
  intros a b. unfold Qeq_bool, QofNat, inject_Z; cbn [Qnum Qden].
  rewrite !Z.mul_1_r. destruct (Nat.eqb_spec a b).
  - subst. apply Z.eqb_refl.
  - apply Z.eqb_neq. lia.
Qed.

Lemma setMap_each_spec : forall ms f b x,
  setMap_each f ms b x = if mem x ms then b else f x.
Proof.
  induction ms as [|y r IH]; intros f b x; [reflexivity|].
  unfold setMap_each in *; cbn [fold_left]. rewrite IH.
  unfold mem, upd; cbn [existsb]. rewrite (Nat.eqb_sym x y).
  destruct (Nat.eqb y x), (existsb (Nat.eqb x) r); reflexivity.
Qed.

Lemma mem_app_single : forall x l m, mem x (l ++ [m]) = mem x l || Nat.eqb x m.
Proof.
  intros x l m. unfold mem. rewrite existsb_app. cbn. rewrite orb_false_r. reflexivity.
Qed.

Lemma mem_In : forall x l, mem x l = true <-> In x l.
Proof.
  intros x l. unfold mem. rewrite existsb_exists. split.
  - intros [y [Hy Hxy]]. apply Nat.eqb_eq in Hxy. subst. exact Hy.
  - intros H. exists x. split; [exact H | apply Nat.eqb_refl].
Qed.

Section ClusterOps.

Variable bounds_extend : LatLngBounds -> LatLng -> LatLngBounds.
Variable getPosition : Marker -> LatLng.
Variable cfg : Config.
Variable v : MapView.

Let addM := cluster_addMarker bounds_extend getPosition cfg v.

Lemma updateIcon_keeps : forall fl c,
  let '(fl', c') := updateIcon cfg v fl c in
  isAdded fl' = isAdded fl /\ c_id c' = c_id c /\ c_markers c' = c_markers c
  /\ c_center c' = c_center c /\ c_bounds c' = c_bounds c.
Proof.
  intros fl c. unfold updateIcon.
  destruct (maxZoomExceeded cfg (mv_zoom v));
    [|destruct (Qltb _ _)]; cbn; repeat split.
Qed.

Lemma addMarker_already : forall fl c m,
  mem m (c_markers c) = true -> addM fl c m = (false, fl, c).
Proof.
  intros fl c m H. unfold addM, cluster_addMarker, isMarkerAlreadyAdded.
  rewrite H. reflexivity.
Qed.

(** A successful [addMarker]: what it does to the flags and to the
    cluster's identity, members, center and bounds. *)
Lemma addMarker_new : forall fl c m,
  mem m (c_markers c) = false ->
  let '(b, fl', c') := addM fl c m in
  b = true /\ isAdded fl' = upd (isAdded fl) m true /\ c_id c' = c_id c
  /\ c_markers c' = c_markers c ++ [m]
  /\ (c_center c', c_bounds c') = addMarker_center bounds_extend getPosition cfg v c m.
Proof.
  intros fl c m H. unfold addM, cluster_addMarker, isMarkerAlreadyAdded.
  rewrite H. destruct (addMarker_center _ _ _ _ c m) as [ctr bnd] eqn:Ec.
  match goal with
  | |- context [updateIcon cfg v ?f ?c1] =>
      pose proof (updateIcon_keeps f c1) as K; destruct (updateIcon cfg v f c1)
  end.
  cbn in K |- *. destruct K as (K1 & K2 & K3 & K4 & K5).
  rewrite K1, K2, K3, K4, K5. auto.
Qed.

End ClusterOps.

Section ClusterClaims.

Variable bounds_extend : LatLngBounds -> LatLng -> LatLngBounds.
Variable getPosition : Marker -> LatLng.
Variable cfg : Config.
Variable v : MapView.

Let addM := cluster_addMarker bounds_extend getPosition cfg v.

(** C5: in average-center mode, the first marker added to a cluster gives
    its center; each later added marker moves the center to
    [(oldCenter * (n-1) + position) / n] ([n] the new member count) in
    latitude and longitude, and the catchment bounds are recomputed from
    the new center on every add.  Adding markers at (0,0), (0,2), (0,4)
    to a new cluster gives the centers (0,0), (0,1), (0,2). *)
Theorem addMarker_average_center :
  averageCenter cfg = true ->
  (forall fl c m,
     mem m (c_markers c) = false -> c_center c = None ->
     let '(_, _, c') := addM fl c m in
     c_center c' = Some (getPosition m)
     /\ c_bounds c' = Some (calculateBounds bounds_extend cfg v (getPosition m)))
  /\ (forall fl c m ctr,
     mem m (c_markers c) = false -> c_center c = Some ctr ->
     let n := QofNat (length (c_markers c) + 1) in
     let ctr' := mkLatLng ((lat ctr * (n - 1) + lat (getPosition m)) / n)
                          ((lng ctr * (n - 1) + lng (getPosition m)) / n) in
     let '(_, _, c') := addM fl c m in
     c_center c' = Some ctr'
     /\ c_bounds c' = Some (calculateBounds bounds_extend cfg v ctr'))
  /\ (forall fl id m1 m2 m3,
     m1 <> m2 -> m1 <> m3 -> m2 <> m3 ->
     getPosition m1 = mkLatLng 0 0 -> getPosition m2 = mkLatLng 0 2 ->
     getPosition m3 = mkLatLng 0 4 ->
     let '(_, fl1, c1) := addM fl (newCluster id) m1 in
     let '(_, fl2, c2) := addM fl1 c1 m2 in
     let '(_, _, c3) := addM fl2 c2 m3 in
     centerIs c1 0 0 /\ centerIs c2 0 1 /\ centerIs c3 0 2).
Proof.
  intros Havg. split; [|split].
  - intros fl c m Hm Hc.
    pose proof (addMarker_new bounds_extend getPosition cfg v fl c m Hm) as A.
    fold addM in A. destruct (addM fl c m) as [[b fl'] c'].
    destruct A as (_ & _ & _ & _ & Hcb). unfold addMarker_center in Hcb.
    rewrite Hc in Hcb. injection Hcb as -> ->. auto.
  - intros fl c m ctr Hm Hc.
    pose proof (addMarker_new bounds_extend getPosition cfg v fl c m Hm) as A.
    fold addM in A. destruct (addM fl c m) as [[b fl'] c'].
    destruct A as (_ & _ & _ & _ & Hcb). unfold addMarker_center in Hcb.
    rewrite Hc, Havg in Hcb. injection Hcb as -> ->. auto.
  - intros fl id m1 m2 m3 H12 H13 H23 P1 P2 P3.
    pose proof (addMarker_new bounds_extend getPosition cfg v fl (newCluster id) m1
                  eq_refl) as A1.
    fold addM in A1. destruct (addM fl (newCluster id) m1) as [[b1 fl1] c1].
    destruct A1 as (_ & _ & _ & M1 & C1). cbn in M1.
    unfold addMarker_center in C1; cbn [newCluster c_center] in C1.
    injection C1 as E1 _.
    assert (N2 : mem m2 (c_markers c1) = false).
    { rewrite M1. cbn. rewrite orb_false_r. apply Nat.eqb_neq. auto. }
    pose proof (addMarker_new bounds_extend getPosition cfg v fl1 c1 m2 N2) as A2.
    fold addM in A2. destruct (addM fl1 c1 m2) as [[b2 fl2] c2].
    destruct A2 as (_ & _ & _ & M2 & C2). rewrite M1 in M2. cbn in M2.
    unfold addMarker_center in C2. rewrite E1, Havg, M1 in C2.
    injection C2 as E2 _.
    assert (N3 : mem m3 (c_markers c2) = false).
    { rewrite M2. cbn. rewrite orb_false_r.
      apply orb_false_iff; split; apply Nat.eqb_neq; auto. }
    pose proof (addMarker_new bounds_extend getPosition cfg v fl2 c2 m3 N3) as A3.
    fold addM in A3. destruct (addM fl2 c2 m3) as [[b3 fl3] c3].
    destruct A3 as (_ & _ & _ & _ & C3).
    unfold addMarker_center in C3. rewrite E2, Havg, M2 in C3.
    injection C3 as E3 _.
    unfold centerIs. rewrite E1, E2, E3. rewrite P1, P2, P3.
    repeat split; reflexivity.
Qed.

End ClusterClaims.

Section ClusterClaims2.

Variable bounds_extend : LatLngBounds -> LatLng -> LatLngBounds.
Variable getPosition : Marker -> LatLng.
Variable cfg : Config.
Variable v : MapView.

Let addM := cluster_addMarker bounds_extend getPosition cfg v.

(** C3 (as amended): with [minimumClusterSize = 3] and no maximal zoom in
    force ([maxZoom] unset, or the map zoom not above it), [addMarker]
    returns false and changes nothing for a marker already a member;
    otherwise it returns true, sets [isAdded], appends the marker, and:
    below 3 members the new marker is shown on the map and the icon is
    hidden; at exactly 3 members all three are hidden and the icon is
    shown; above 3 the new marker is hidden and the icon is shown. *)
Theorem addMarker_min_cluster_size_3 :
  minClusterSize cfg = 3 -> maxZoomExceeded cfg (mv_zoom v) = false ->
  forall fl c m,
  (mem m (c_markers c) = true -> addM fl c m = (false, fl, c))
  /\ (mem m (c_markers c) = false ->
      let '(b, fl', c') := addM fl c m in
      b = true /\ isAdded fl' m = true /\ c_markers c' = c_markers c ++ [m]
      /\ ((length (c_markers c') < 3)%nat ->
            onMap fl' m = true /\ c_iconVisible c' = false)
      /\ (length (c_markers c') = 3%nat ->
            (forall x, In x (c_markers c') -> onMap fl' x = false)
            /\ c_iconVisible c' = true)
      /\ ((3 < length (c_markers c'))%nat ->
            onMap fl' m = false /\ c_iconVisible c' = true)).
Proof.
  intros Hmin Hz fl c m. split.
  - apply addMarker_already.
  - intros Hm. unfold addM, cluster_addMarker, isMarkerAlreadyAdded.
    rewrite Hm. destruct (addMarker_center _ _ _ _ c m) as [ctr bnd].
    unfold updateIcon. rewrite Hz. cbn [c_markers isAdded onMap c_iconVisible].
    rewrite Hmin. change (3:Q) with (QofNat 3). unfold Qltb.
    rewrite !QofNat_le, !QofNat_eq.
    set (ms := c_markers c ++ [m]). set (len := length ms).
    destruct (Nat.leb_spec 3 len), (Nat.eqb_spec len 3); cbn;
      repeat split; intros; try lia;
      unfold upd; rewrite ?Nat.eqb_refl; try reflexivity.
    + destruct (Nat.eqb x m); [reflexivity|].
      rewrite setMap_each_spec.
      match goal with Hx : In x ms |- _ => apply mem_In in Hx; rewrite Hx end.
      reflexivity.
    + destruct (onMap fl m) eqn:E; cbn; [exact E|].
      rewrite Nat.eqb_refl. reflexivity.
Qed.

End ClusterClaims2.

Section ClusterClaims3.

Variable bounds_extend : LatLngBounds -> LatLng -> LatLngBounds.
Variable getPosition : Marker -> LatLng.
Variable cfg : Config.
Variable v : MapView.

Let addM := cluster_addMarker bounds_extend getPosition cfg v.

Lemma addMarker_above_max_zoom : forall fl c m,
  maxZoomExceeded cfg (mv_zoom v) = true ->
  let '(_, fl', c') := addM fl c m in
  c_iconVisible c' = c_iconVisible c
  /\ ((forall x, In x (c_markers c) -> onMap fl x = true) ->
      forall x, In x (c_markers c') -> onMap fl' x = true).
Proof.
  intros fl c m Hz. unfold addM, cluster_addMarker, isMarkerAlreadyAdded.
  destruct (mem m (c_markers c)); [split; auto|].
  destruct (addMarker_center _ _ _ _ c m) as [ctr bnd].
  unfold updateIcon. rewrite Hz. cbn [c_iconVisible c_markers onMap].
  split; [reflexivity|]. intros _ x Hx.
  rewrite setMap_each_spec. apply mem_In in Hx. rewrite Hx. reflexivity.
Qed.

(** C7 (as amended): when a maximal zoom is in force ([maxZoom] set to a
    non-zero value and the map zoom above it), [updateIcon] attaches every
    member to the map and returns without touching the icon, so a cluster
    whose markers are all added at such a zoom (as every cluster built in
    one clustering pass) never shows its icon, whatever
    [minimumClusterSize]; otherwise [updateIcon] hides the icon when the
    cluster has fewer members than [minimumClusterSize], and else centers
    it on the cluster center and shows it. *)
Theorem updateIcon_max_zoom :
  (maxZoomExceeded cfg (mv_zoom v) = true ->
   forall fl c,
     let '(fl', c') := updateIcon cfg v fl c in
     c' = c /\ isAdded fl' = isAdded fl
     /\ forall x, In x (c_markers c) -> onMap fl' x = true)
  /\ (maxZoomExceeded cfg (mv_zoom v) = true ->
   forall fl id ms,
     let '(fl', c') :=
       cluster_addAll bounds_extend getPosition cfg v fl (newCluster id) ms in
     c_iconVisible c' = false
     /\ forall x, In x (c_markers c') -> onMap fl' x = true)
  /\ (maxZoomExceeded cfg (mv_zoom v) = false ->
   forall fl c,
     let '(fl', c') := updateIcon cfg v fl c in
     fl' = fl /\ c_markers c' = c_markers c
     /\ (Qltb (QofNat (length (c_markers c))) (minClusterSize cfg) = true ->
         c_iconVisible c' = false)
     /\ (Qltb (QofNat (length (c_markers c))) (minClusterSize cfg) = false ->
         c_iconVisible c' = true /\ c_iconCenter c' = c_center c)).
Proof.
  split; [|split].
  - intros Hz fl c. unfold updateIcon. rewrite Hz. cbn.
    split; [reflexivity|split; [reflexivity|]].
    intros x Hx. rewrite setMap_each_spec. apply mem_In in Hx. rewrite Hx.
    reflexivity.
  - intros Hz fl id ms.
    assert (G : forall ms fl c, c_iconVisible c = false ->
              (forall x, In x (c_markers c) -> onMap fl x = true) ->
              let '(fl', c') :=
                cluster_addAll bounds_extend getPosition cfg v fl c ms in
              c_iconVisible c' = false
              /\ forall x, In x (c_markers c') -> onMap fl' x = true).
    { induction ms0 as [|m r IH]; intros fl0 c0 Hi Hon; [split; assumption|].
      cbn [cluster_addAll].
      pose proof (addMarker_above_max_zoom fl0 c0 m Hz) as A.
      fold addM. destruct (addM fl0 c0 m) as [[b fl1] c1].
      destruct A as [A1 A2]. apply IH; [congruence|]. apply A2. exact Hon. }
    apply G; [reflexivity|]. intros x [].
  - intros Hz fl c. unfold updateIcon. rewrite Hz.
    destruct (Qltb _ _); cbn; repeat split; congruence.
Qed.

End ClusterClaims3.

(** ** The clustering pass *)

Lemma mem_cons : forall x a l, mem x (a :: l) = Nat.eqb x a || mem x l.
Proof. reflexivity. Qed.

Lemma dedup_aux_filter : forall l seen (P : Marker -> bool),
  dedup_aux seen (filter P l)
  = dedup (filter (fun y => P y && negb (mem y seen)) l).
Proof.
  unfold dedup. induction l as [|a r IH]; intros seen P; [reflexivity|].
  cbn [filter]. destruct (P a) eqn:Pa; cbn [andb negb].
  - destruct (mem a seen) eqn:Ma; cbn [negb dedup_aux]; rewrite Ma.
    + apply IH.
    + cbn [mem existsb]. rewrite (IH (a :: seen) P), (IH [a]). f_equal. f_equal.
      apply filter_ext. intros y. rewrite !mem_cons. cbn [mem existsb].
      rewrite Nat.eqb_sym.
      destruct (P y), (mem y seen), (Nat.eqb a y); reflexivity.
  - apply IH.
Qed.

Section Pass.

Variable bounds_extend : LatLngBounds -> LatLng -> LatLngBounds.
Variable bounds_contains : LatLngBounds -> LatLng -> bool.
Variable getPosition : Marker -> LatLng.
Variable search : list Node -> Rect -> list Node.
Variable cfg : Config.
Variable v : MapView.

Let addM := cluster_addMarker bounds_extend getPosition cfg v.
Let addC := addCandidates bounds_extend getPosition cfg v.
Let loop := createLoop bounds_extend bounds_contains getPosition search cfg v.
Let spass := spec_pass bounds_extend bounds_contains getPosition search cfg v.

(** The inner loop adds, in search order and once each, the eligible
    markers of the search that were not clustered when it started. *)
Lemma addCandidates_spec : forall nodes fl c,
  (forall x, mem x (c_markers c) = true -> isAdded fl x = true) ->
  let new := dedup (filter (fun x => negb (isAdded fl x) && isClusterable cfg x)
                           (map node_marker nodes)) in
  let '(fl', c') := addC fl c nodes in
  c_markers c' = c_markers c ++ new
  /\ (forall x, isAdded fl' x = isAdded fl x || mem x new)
  /\ (forall x, mem x (c_markers c') = true -> isAdded fl' x = true).
Proof.
  induction nodes as [|n r IH]; intros fl c Hc; cbn zeta.
  - cbn. rewrite app_nil_r. repeat split; auto. intros x. symmetry. apply orb_false_r.
  - unfold addC. cbn [addCandidates map filter]. fold addC.
    set (x := node_marker n).
    destruct (isAdded fl x) eqn:Ax; cbn [negb andb].
    { apply (IH fl c Hc). }
    destruct (isClusterable cfg x) eqn:Cx; cbn [negb].
    2: { apply (IH fl c Hc). }
    assert (Mx : mem x (c_markers c) = false).
    { destruct (mem x (c_markers c)) eqn:E; auto. rewrite (Hc x E) in Ax.
      discriminate. }
    pose proof (addMarker_new bounds_extend getPosition cfg v fl c x Mx) as A.
    fold addM in A |- *. destruct (addM fl c x) as [[b fl1] c1].
    destruct A as (_ & F1 & _ & M1 & _).
    assert (Hc1 : forall y, mem y (c_markers c1) = true -> isAdded fl1 y = true).
    { intros y Hy. rewrite F1. unfold upd. rewrite M1, mem_app_single in Hy.
      destruct (Nat.eqb y x); [reflexivity|]. rewrite orb_false_r in Hy.
      apply Hc, Hy. }
    specialize (IH fl1 c1 Hc1). cbn zeta in IH.
    destruct (addC fl1 c1 r) as [fl' c'].
    assert (D : dedup_aux [x] (filter (fun y => negb (isAdded fl y)
                                               && isClusterable cfg y)
                                      (map node_marker r))
                = dedup (filter (fun y => negb (isAdded fl1 y)
                                          && isClusterable cfg y)
                                (map node_marker r))).
    { rewrite dedup_aux_filter. f_equal. apply filter_ext. intros y.
      rewrite F1. unfold upd. cbn [mem existsb]. rewrite orb_false_r.
      destruct (Nat.eqb y x); cbn; [|rewrite andb_true_r]; 
        [rewrite andb_false_r; reflexivity | reflexivity]. }
    change (dedup (x :: ?l)) with (x :: dedup_aux [x] l). rewrite D.
    destruct IH as (I1 & I2 & I3). repeat split.
    + rewrite I1, M1, <- app_assoc. reflexivity.
    + intros y. rewrite I2, F1, mem_cons. unfold upd.
      destruct (Nat.eqb y x), (isAdded fl y); reflexivity.
    + exact I3.
Qed.

Lemma spec_pass_ext : forall vp tree ms (f g : Marker -> bool),
  (forall x, f x = g x) ->
  fst (spass vp tree f ms) = fst (spass vp tree g ms)
  /\ forall x, snd (spass vp tree f ms) x = snd (spass vp tree g ms) x.
Proof.
  intros vp tree. induction ms as [|m r IH]; intros f g Hfg.
  - cbn. auto.
  - unfold spass. cbn [spec_pass]. fold spass. rewrite Hfg.
    assert (Hm : spec_members bounds_extend getPosition search cfg v f tree m
                 = spec_members bounds_extend getPosition search cfg v g tree m).
    { unfold spec_members. f_equal. f_equal. apply filter_ext. intros y.
      rewrite Hfg. reflexivity. }
    rewrite Hm.
    destruct (negb (g m) && bounds_contains vp (getPosition m)
              && isClusterable cfg m).
    + set (mb := spec_members bounds_extend getPosition search cfg v g tree m).
      destruct (IH (fun x => f x || mem x mb) (fun x => g x || mem x mb))
        as [E1 E2].
      { intros x. rewrite Hfg. reflexivity. }
      destruct (spass vp tree (fun x => f x || mem x mb) r) as [cs1 fl1].
      destruct (spass vp tree (fun x => g x || mem x mb) r) as [cs2 fl2].
      cbn in E1, E2 |- *. rewrite E1. auto.
    + apply IH. exact Hfg.
Qed.

Lemma createLoop_spec : forall vp tree ms fl cs nx,
  let '(fl', cs', nx') := loop vp tree fl cs nx ms in
  map c_markers cs' = map c_markers cs ++ fst (spass vp tree (isAdded fl) ms)
  /\ forall x, isAdded fl' x = snd (spass vp tree (isAdded fl) ms) x.
Proof.
  intros vp tree. induction ms as [|m r IH]; intros fl cs nx.
  - cbn. rewrite app_nil_r. auto.
  - unfold loop, spass. cbn [createLoop spec_pass]. fold loop spass.
    destruct (isAdded fl m) eqn:Am; cbn [negb andb]; [apply IH|].
    destruct (bounds_contains vp (getPosition m)); cbn [negb andb]; [|apply IH].
    destruct (isClusterable cfg m) eqn:Cm; cbn [negb]; [|apply IH].
    pose proof (addMarker_new bounds_extend getPosition cfg v fl (newCluster nx) m
                  eq_refl) as A.
    fold addM in A |- *. destruct (addM fl (newCluster nx) m) as [[b fl1] c1].
    destruct A as (_ & F1 & _ & M1 & _). cbn [c_markers newCluster app] in M1.
    set (pos := getPosition m).
    set (nodes := search tree (boundsToArray
                   (getExtendedBounds bounds_extend cfg v (mkBounds pos pos)))).
    assert (Hc1 : forall y, mem y (c_markers c1) = true -> isAdded fl1 y = true).
    { intros y Hy. rewrite M1 in Hy. cbn in Hy. rewrite orb_false_r in Hy.
      apply Nat.eqb_eq in Hy. subst y. rewrite F1. unfold upd.
      rewrite Nat.eqb_refl. reflexivity. }
    pose proof (addCandidates_spec nodes fl1 c1 Hc1) as B. cbn zeta in B.
    fold addC. destruct (addC fl1 c1 nodes) as [fl2 c2].
    destruct B as (B1 & B2 & _).
    set (members := spec_members bounds_extend getPosition search cfg v
                      (isAdded fl) tree m).
    assert (Mem : c_markers c2 = members).
    { rewrite B1, M1. unfold members, spec_members. cbn [app]. f_equal.
      f_equal. apply filter_ext. intros y. rewrite F1. unfold upd.
      destruct (Nat.eqb y m); cbn; [rewrite andb_false_r; reflexivity|].
      rewrite andb_true_r. reflexivity. }
    specialize (IH fl2 (cs ++ [c2]) (S nx)).
    destruct (loop vp tree fl2 (cs ++ [c2]) (S nx) r) as [[fl' cs'] nx'].
    destruct IH as [I1 I2].
    destruct (spec_pass_ext vp tree r (isAdded fl2)
                (fun x => isAdded fl x || mem x members)) as [E1 E2].
    { intros y. rewrite <- Mem, B1, M1, B2, F1. unfold upd. cbn [app mem existsb].
      destruct (Nat.eqb y m), (isAdded fl y); reflexivity. }
    destruct (spass vp tree (fun x => isAdded fl x || mem x members) r)
      as [cs0 f0] eqn:Es.
    cbn [fst snd] in E1, E2 |- *. split.
    + rewrite I1, E1, map_app, <- app_assoc. cbn. rewrite Mem. reflexivity.
    + intros x. rewrite I2. apply E2.
Qed.

(** C1: a clustering pass with [ready_] set (and defined map bounds) keeps
    the existing clusters and appends, in registration order, one cluster
    per marker that is, when visited, not clustered, inside the extended
    viewport and eligible; that cluster is the seed followed by every
    eligible marker, not clustered at that moment, that the spatial-index
    search around the seed (its position extended by [gridSize]) returns,
    in search order and once each.  The clustered flags afterwards are the
    ones of this greedy description; markers and index are untouched. *)
Theorem createClusters_greedy_pass : forall e mb,
  ready_ e = true -> mv_bounds v = Some mb ->
  exists e',
    createClusters_ bounds_extend bounds_contains getPosition search cfg v e = Some e'
    /\ markers_ e' = markers_ e /\ tree_ e' = tree_ e
    /\ map c_markers (clusters_ e')
       = map c_markers (clusters_ e)
         ++ fst (spass (passBounds bounds_extend cfg v mb) (tree_ e)
                       (isAdded (flags e)) (markers_ e))
    /\ forall x, isAdded (flags e') x
                 = snd (spass (passBounds bounds_extend cfg v mb) (tree_ e)
                              (isAdded (flags e)) (markers_ e)) x.
Proof.
  intros e mb Hr Hb. unfold createClusters_. rewrite Hr, Hb. cbn [negb].
  pose proof (createLoop_spec (passBounds bounds_extend cfg v mb) (tree_ e)
                (markers_ e) (flags e) (clusters_ e) (nextCluster e)) as L.
  fold loop. destruct (loop _ _ _ _ _ _) as [[fl cs] nx].
  eexists. split; [reflexivity|]. cbn. destruct L as [L1 L2]. auto.
Qed.

End Pass.

Section PassFacts.

Variable bounds_extend : LatLngBounds -> LatLng -> LatLngBounds.
Variable bounds_contains : LatLngBounds -> LatLng -> bool.
Variable getPosition : Marker -> LatLng.
Variable search : list Node -> Rect -> list Node.
Variable cfg : Config.
Variable v : MapView.

Let addM := cluster_addMarker bounds_extend getPosition cfg v.
Let addC := addCandidates bounds_extend getPosition cfg v.
Let loop := createLoop bounds_extend bounds_contains getPosition search cfg v.
Let pass := createClusters_ bounds_extend bounds_contains getPosition search cfg v.

(** A marker the pass leaves unclustered was skipped: it lies outside the
    extended viewport or is not eligible.  Flags only go up. *)
Lemma createLoop_post : forall vp tree ms fl cs nx,
  let '(fl', _, _) := loop vp tree fl cs nx ms in
  (forall x, isAdded fl x = true -> isAdded fl' x = true)
  /\ (forall x, In x ms -> isAdded fl' x = false ->
        bounds_contains vp (getPosition x) = false
        \/ isClusterable cfg x = false).
Proof.
  intros vp tree. induction ms as [|m r IH]; intros fl cs nx.
  - cbn. split; [auto|]. intros x [].
  - unfold loop. cbn [createLoop]. fold loop.
    assert (Skip : forall fl0 cs0 nx0,
      (isAdded fl0 m = true \/ bounds_contains vp (getPosition m) = false
       \/ isClusterable cfg m = false) ->
      (forall x, isAdded fl x = true -> isAdded fl0 x = true) ->
      let '(fl', _, _) := loop vp tree fl0 cs0 nx0 r in
      (forall x, isAdded fl x = true -> isAdded fl' x = true)
      /\ (forall x, In x (m :: r) -> isAdded fl' x = false ->
            bounds_contains vp (getPosition x) = false
            \/ isClusterable cfg x = false)).
    { intros fl0 cs0 nx0 Hm Hmono. specialize (IH fl0 cs0 nx0).
      destruct (loop vp tree fl0 cs0 nx0 r) as [[fl' cs'] nx'].
      destruct IH as [I1 I2]. split; [auto|].
      intros x [<-|Hx] Hf; [|auto].
      destruct Hm as [Hm|Hm]; [|exact Hm]. rewrite (I1 _ Hm) in Hf.
      discriminate. }
    destruct (isAdded fl m) eqn:Am; [apply Skip; auto|].
    destruct (bounds_contains vp (getPosition m)) eqn:Bm; cbn [negb];
      [|apply Skip; auto].
    destruct (isClusterable cfg m) eqn:Cm; cbn [negb]; [|apply Skip; auto].
    pose proof (addMarker_new bounds_extend getPosition cfg v fl (newCluster nx) m
                  eq_refl) as A.
    fold addM in A |- *. destruct (addM fl (newCluster nx) m) as [[b fl1] c1].
    destruct A as (_ & F1 & _ & M1 & _). cbn [c_markers newCluster app] in M1.
    set (pos := getPosition m).
    set (nodes := search tree (boundsToArray
                   (getExtendedBounds bounds_extend cfg v (mkBounds pos pos)))).
    assert (Hc1 : forall y, mem y (c_markers c1) = true -> isAdded fl1 y = true).
    { intros y Hy. rewrite M1 in Hy. cbn in Hy. rewrite orb_false_r in Hy.
      apply Nat.eqb_eq in Hy. subst y. rewrite F1. unfold upd.
      rewrite Nat.eqb_refl. reflexivity. }
    pose proof (addCandidates_spec bounds_extend getPosition cfg v nodes fl1 c1 Hc1)
      as B. cbn zeta in B. fold addC in B |- *.
    destruct (addC fl1 c1 nodes) as [fl2 c2].
    destruct B as (_ & B2 & _).
    apply Skip.
    + left. rewrite B2, F1. unfold upd. rewrite Nat.eqb_refl. reflexivity.
    + intros x Hx. rewrite B2, F1. unfold upd. rewrite Hx.
      destruct (Nat.eqb x m); reflexivity.
Qed.

(** A pass in which every marker is skipped changes nothing. *)
Lemma createLoop_idle : forall vp tree ms fl cs nx,
  (forall x, In x ms -> isAdded fl x = true
                        \/ bounds_contains vp (getPosition x) = false
                        \/ isClusterable cfg x = false) ->
  loop vp tree fl cs nx ms = (fl, cs, nx).
Proof.
  intros vp tree. induction ms as [|m r IH]; intros fl cs nx H; [reflexivity|].
  unfold loop. cbn [createLoop]. fold loop.
  assert (Hr : loop vp tree fl cs nx r = (fl, cs, nx)).
  { apply IH. intros x Hx. apply H. right. exact Hx. }
  destruct (H m (or_introl eq_refl)) as [E|[E|E]]; rewrite E; cbn [negb].
  - exact Hr.
  - destruct (isAdded fl m); exact Hr.
  - destruct (isAdded fl m); [exact Hr|].
    destruct (bounds_contains vp (getPosition m)); exact Hr.
Qed.

Lemma createClusters_post : forall e e' mb,
  ready_ e = true -> mv_bounds v = Some mb -> pass e = Some e' ->
  ready_ e' = true /\ markers_ e' = markers_ e /\ tree_ e' = tree_ e
  /\ (forall x, isAdded (flags e) x = true -> isAdded (flags e') x = true)
  /\ forall x, In x (markers_ e') -> isAdded (flags e') x = false ->
       bounds_contains (passBounds bounds_extend cfg v mb) (getPosition x) = false
       \/ isClusterable cfg x = false.
Proof.
  intros e e' mb Hr Hb. unfold pass, createClusters_. rewrite Hr, Hb.
  cbn [negb].
  pose proof (createLoop_post (passBounds bounds_extend cfg v mb) (tree_ e)
                (markers_ e) (flags e) (clusters_ e) (nextCluster e)) as L.
  fold loop. destruct (loop _ _ _ _ _ _) as [[fl cs] nx].
  intros H. injection H as <-. cbn. destruct L as [L1 L2]. auto.
Qed.

(** C4: running the clustering pass ([redraw]) a second time right after a
    first one, with the same map view and no change in between, returns
    the state the first one produced: no cluster is added, the clusters
    and all marker fields are the same. *)
Theorem redraw_twice_idempotent : forall e e1 e2,
  redraw bounds_extend bounds_contains getPosition search cfg v e = Some e1 ->
  redraw bounds_extend bounds_contains getPosition search cfg v e1 = Some e2 ->
  e2 = e1.
Proof.
  intros e e1 e2 H1 H2. unfold redraw in *. fold pass in H1, H2.
  destruct (ready_ e) eqn:Hr.
  2: { unfold pass, createClusters_ in H1. rewrite Hr in H1. injection H1 as <-.
       unfold pass, createClusters_ in H2. rewrite Hr in H2.
       injection H2 as <-. reflexivity. }
  destruct (mv_bounds v) as [mb|] eqn:Hb.
  2: { unfold pass, createClusters_ in H1. rewrite Hr, Hb in H1. discriminate. }
  destruct (createClusters_post e e1 mb Hr Hb H1) as (R1 & _ & _ & _ & P1).
  unfold pass, createClusters_ in H2. rewrite R1, Hb in H2. cbn [negb] in H2.
  fold loop in H2. rewrite createLoop_idle in H2.
  - injection H2 as <-. destruct e1; cbn in R1 |- *. subst. reflexivity.
  - intros x Hx. destruct (isAdded (flags e1) x) eqn:A; [left; reflexivity|].
    right. apply P1; assumption.
Qed.

End PassFacts.

(** ** The membership invariant *)

Lemma cnt_app : forall cs c x,
  cnt (cs ++ [c]) x = (cnt cs x + if mem x (c_markers c) then 1 else 0)%nat.
Proof.
  intros cs c x. unfold cnt. rewrite filter_app, length_app. cbn.
  destruct (mem x (c_markers c)); reflexivity.
Qed.

Lemma dedup_aux_In : forall l seen x, In x (dedup_aux seen l) -> In x l.
Proof.
  induction l as [|a r IH]; intros seen x H; [exact H|].
  cbn in H. destruct (mem a seen).
  - right. eapply IH. exact H.
  - destruct H as [H|H]; [left; exact H|right; eapply IH; exact H].
Qed.

Lemma splice1_In : forall i l x, In x (splice1 i l) -> In x l.
Proof.
  induction i as [|i IH]; intros [|a r] x H; cbn in H.
  - destruct H.
  - right. exact H.
  - destruct H.
  - destruct H as [H|H]; [left; exact H|right; eapply IH; exact H].
Qed.

Section InvFacts.

Variable bounds_extend : LatLngBounds -> LatLng -> LatLngBounds.
Variable bounds_contains : LatLngBounds -> LatLng -> bool.
Variable getPosition : Marker -> LatLng.
Variable search : list Node -> Rect -> list Node.
Variable cfg : Config.

Let addM v := cluster_addMarker bounds_extend getPosition cfg v.
Let addC v := addCandidates bounds_extend getPosition cfg v.
Let loop v := createLoop bounds_extend bounds_contains getPosition search cfg v.
Let pass v := createClusters_ bounds_extend bounds_contains getPosition search cfg v.

Definition bit (b : bool) : nat := if b then 1%nat else 0%nat.

(** Along the pass, a marker's number of clusters grows by one exactly
    when its flag goes up. *)
Lemma createLoop_cnt : forall v vp tree ms fl cs nx,
  let '(fl', cs', _) := loop v vp tree fl cs nx ms in
  forall x, (cnt cs' x + bit (isAdded fl x) = cnt cs x + bit (isAdded fl' x))%nat.
Proof.
  intros v vp tree. induction ms as [|m r IH]; intros fl cs nx.
  - cbn. reflexivity.
  - unfold loop. cbn [createLoop]. fold (loop v).
    destruct (isAdded fl m) eqn:Am; [apply IH|].
    destruct (bounds_contains vp (getPosition m)) eqn:Bm; cbn [negb]; [|apply IH].
    destruct (isClusterable cfg m) eqn:Cm; cbn [negb]; [|apply IH].
    pose proof (addMarker_new bounds_extend getPosition cfg v fl (newCluster nx) m
                  eq_refl) as A.
    fold (addM v) in A |- *. destruct (addM v fl (newCluster nx) m) as [[b fl1] c1].
    destruct A as (_ & F1 & _ & M1 & _). cbn [c_markers newCluster app] in M1.
    set (pos := getPosition m).
    set (nodes := search tree (boundsToArray
                   (getExtendedBounds bounds_extend cfg v (mkBounds pos pos)))).
    assert (Hc1 : forall y, mem y (c_markers c1) = true -> isAdded fl1 y = true).
    { intros y Hy. rewrite M1 in Hy. cbn in Hy. rewrite orb_false_r in Hy.
      apply Nat.eqb_eq in Hy. subst y. rewrite F1. unfold upd.
      rewrite Nat.eqb_refl. reflexivity. }
    pose proof (addCandidates_spec bounds_extend getPosition cfg v nodes fl1 c1 Hc1)
      as B. cbn zeta in B. fold (addC v) in B |- *.
    destruct (addC v fl1 c1 nodes) as [fl2 c2].
    destruct B as (B1 & B2 & _).
    specialize (IH fl2 (cs ++ [c2]) (S nx)).
    destruct (loop v vp tree fl2 (cs ++ [c2]) (S nx) r) as [[fl' cs'] nx'].
    intros x. specialize (IH x). rewrite cnt_app in IH.
    assert (K : (bit (mem x (c_markers c2)) + bit (isAdded fl x)
                 = bit (isAdded fl2 x))%nat).
    { rewrite B2, B1, M1. cbn [app]. rewrite mem_cons.
      set (D := dedup _). rewrite F1. unfold upd.
      destruct (Nat.eqb x m) eqn:Exm.
      - apply Nat.eqb_eq in Exm. subst x. rewrite Am. reflexivity.
      - cbn [orb]. destruct (isAdded fl x) eqn:Ax; cbn [orb].
        + destruct (mem x D) eqn:Mx; [|reflexivity].
          unfold D in Mx.
          apply mem_In, dedup_aux_In, filter_In in Mx. destruct Mx as [_ Mx].
          rewrite F1 in Mx. unfold upd in Mx. rewrite Exm, Ax in Mx.
          discriminate.
        + destruct (mem x D); reflexivity. }
    unfold bit in *. lia.
Qed.

Lemma pass_inv : forall v e e',
  membershipInv e -> pass v e = Some e' -> membershipInv e'.
Proof.
  intros v e e' I H. unfold pass, createClusters_ in H.
  destruct (ready_ e); cbn [negb] in H.
  2: { injection H as <-. exact I. }
  destruct (mv_bounds v) as [mb|]; [|discriminate].
  pose proof (createLoop_cnt v (passBounds bounds_extend cfg v mb) (tree_ e)
                (markers_ e) (flags e) (clusters_ e) (nextCluster e)) as L.
  fold (loop v) in H. destruct (loop v _ _ _ _ _ _) as [[fl cs] nx].
  injection H as <-. intros x Hx. cbn [markers_ clusters_ flags] in Hx |- *.
  specialize (L x). specialize (I x Hx). unfold bit in L. rewrite I in L.
  destruct (isAdded (flags e) x), (isAdded fl x); lia.
Qed.

Lemma resetViewport_inv : forall reset e, membershipInv (resetViewport reset e).
Proof.
  intros reset e x Hx. cbn in Hx |- *.
  change (fold_left (fun f m => upd f m false) (markers_ e) (isAdded (flags e)))
    with (setMap_each (isAdded (flags e)) (markers_ e) false).
  rewrite setMap_each_spec. apply mem_In in Hx. rewrite Hx. reflexivity.
Qed.

Lemma push_inv : forall e m,
  membershipInv e -> cnt (clusters_ e) m = 0%nat ->
  membershipInv (pushMarkerTo_ e m).
Proof.
  intros e m I Hm x Hx. cbn in Hx |- *. unfold upd.
  destruct (Nat.eqb_spec x m); [subst; exact Hm|].
  apply I. apply in_app_or in Hx. destruct Hx as [Hx|[Hx|[]]]; [exact Hx|].
  congruence.
Qed.

Lemma pushes_inv : forall ms e,
  membershipInv e -> (forall m, In m ms -> cnt (clusters_ e) m = 0%nat) ->
  membershipInv (fold_left pushMarkerTo_ ms e)
  /\ clusters_ (fold_left pushMarkerTo_ ms e) = clusters_ e.
Proof.
  induction ms as [|m r IH]; intros e I H; [auto|].
  cbn [fold_left]. destruct (IH (pushMarkerTo_ e m)) as [I1 I2].
  - apply push_inv; [exact I|]. apply H. left. reflexivity.
  - intros m' Hm'. apply H. right. exact Hm'.
  - split; [exact I1|]. rewrite I2. reflexivity.
Qed.

Lemma removeMarker__inv : forall m e,
  membershipInv e -> membershipInv (snd (removeMarker_ m e)).
Proof.
  intros m e I. unfold removeMarker_.
  destruct (indexOf m (markers_ e)) as [i|]; [|exact I].
  intros x Hx. cbn in Hx |- *. apply I. eapply splice1_In. exact Hx.
Qed.

Lemma removeMarkers_loop_inv : forall ms b e,
  membershipInv e ->
  membershipInv (snd (fold_left (fun acc m => let '(removed, e) := acc in
                          let '(r, e') := removeMarker_ m e in
                          (removed || r, e')) ms (b, e))).
Proof.
  induction ms as [|m r IH]; intros b e I; [exact I|].
  cbn [fold_left]. pose proof (removeMarker__inv m e I) as J.
  destruct (removeMarker_ m e) as [r0 e0]. apply IH. exact J.
Qed.

End InvFacts.

Section Membership.

Variable bounds_extend : LatLngBounds -> LatLng -> LatLngBounds.
Variable bounds_contains : LatLngBounds -> LatLng -> bool.
Variable getPosition : Marker -> LatLng.
Variable search : list Node -> Rect -> list Node.
Variable cfg : Config.

Let pass v := createClusters_ bounds_extend bounds_contains getPosition search cfg v.

Lemma pass_inv' : forall v e e',
  membershipInv e -> pass v e = Some e' -> membershipInv e'.
Proof. exact (pass_inv bounds_extend bounds_contains getPosition search cfg). Qed.

(** C2 (as amended): in every state reached from a new clusterer by
    [addMarker]/[addMarkers] of markers that are members of no active
    cluster, [removeMarker]/[removeMarkers], [redraw], [repaint],
    [resetViewport], [clearMarkers] and the map's [onAdd] ([removeCluster]
    left out), every tracked marker whose [isAdded] flag is set is a member
    of exactly one active cluster and every other tracked marker of none;
    and after a clustering pass that runs, every tracked marker left with
    the flag unset lies outside the pass's extended viewport or is not
    eligible ([isClusterable] false). *)
Theorem reachable_membership_invariant : forall e,
  reachable bounds_extend bounds_contains getPosition search cfg e ->
  membershipInv e
  /\ forall v e' mb,
       ready_ e = true -> mv_bounds v = Some mb ->
       createClusters_ bounds_extend bounds_contains getPosition search cfg v e
         = Some e' ->
       forall x, In x (markers_ e') -> isAdded (flags e') x = false ->
         bounds_contains (passBounds bounds_extend cfg v mb) (getPosition x) = false
         \/ isClusterable cfg x = false.
Proof.
  intros e R. split.
  2: { intros v e' mb Hr Hb Hp.
       destruct (createClusters_post bounds_extend bounds_contains getPosition
                   search cfg v e e' mb Hr Hb Hp) as (_ & _ & _ & _ & P).
       exact P. }
  induction R as [fl
    | e v m nodraw e' R I Hm H | e v ms nodraw e' R I Hm H
    | e v m nodraw b e' R I H | e v ms nodraw b e' R I H
    | e v e' R I H | e v e' R I H | e reset R I
    | e v nodraw e' R I H | e v e' R I H].
  - intros x [].
  - unfold addMarker in H. fold (pass v) in H.
    assert (J : membershipInv (pushMarkerTo_ e m)) by (apply push_inv; assumption).
    destruct nodraw; cbn [negb] in H.
    + injection H as <-. exact J.
    + eapply pass_inv'; [|exact H]. exact J.
  - unfold addMarkers in H. fold (pass v) in H.
    destruct (pushes_inv ms e I Hm) as [J _].
    destruct nodraw; cbn [negb] in H.
    + injection H as <-. exact J.
    + eapply pass_inv'; [|exact H]. exact J.
  - unfold removeMarker in H. fold (pass v) in H.
    pose proof (removeMarker__inv m e I) as J.
    destruct (removeMarker_ m e) as [removed e1]. cbn [snd] in J.
    destruct (negb nodraw && removed).
    + destruct (pass v (resetViewport false e1)) as [e2|] eqn:P; [|discriminate].
      injection H as _ <-. eapply pass_inv'; [|exact P]. apply resetViewport_inv.
    + injection H as _ <-. exact J.
  - unfold removeMarkers, removeMarkers_loop in H. fold (pass v) in H.
    pose proof (removeMarkers_loop_inv ms false e I) as J.
    destruct (fold_left _ ms (false, e)) as [removed e1]. cbn [snd] in J.
    destruct (negb nodraw && removed).
    + destruct (pass v (resetViewport false e1)) as [e2|] eqn:P; [|discriminate].
      injection H as _ <-. eapply pass_inv'; [|exact P]. apply resetViewport_inv.
    + injection H as _ <-. exact J.
  - eapply pass_inv'; [exact I|exact H].
  - eapply pass_inv'; [|exact H]. apply resetViewport_inv.
  - apply resetViewport_inv.
  - unfold clearMarkers in H. fold (pass v) in H.
    assert (J : membershipInv
                  (mkEngine [] (clusters_ (resetViewport true e))
                     (ready_ (resetViewport true e)) []
                     (flags (resetViewport true e))
                     (nextCluster (resetViewport true e)))) by (intros x []).
    destruct nodraw; cbn [negb] in H.
    + injection H as <-. exact J.
    + eapply pass_inv'; [|exact H]. exact J.
  - unfold setReady_ in H. fold (pass v) in H.
    destruct (ready_ e); cbn [negb] in H.
    + injection H as <-. exact I.
    + eapply pass_inv'; [|exact H]. exact I.
Qed.

End Membership.

(** ** Removing a marker *)

Lemma Qeqb_struct_eq : forall a b, Qeqb_struct a b = true <-> a = b.
Proof.
  intros [an ad] [bn bd]. unfold Qeqb_struct. cbn.
  rewrite andb_true_iff, Z.eqb_eq, Pos.eqb_eq. split.
  - intros [-> ->]. reflexivity.
  - intros H. injection H as -> ->. auto.
Qed.

Lemma node_eqb_eq : forall a b, node_eqb a b = true <-> a = b.
Proof.
  intros [[la ga] ma] [[lb gb] mb]. unfold node_eqb.
  rewrite !andb_true_iff, !Qeqb_struct_eq, Nat.eqb_eq. split.
  - intros [[-> ->] ->]. reflexivity.
  - intros H. injection H as -> -> ->. auto.
Qed.

Section TreeRemoval.

Variable m : Marker.

Let ism (n : Node) : bool := Nat.eqb (node_marker n) m.

Lemma tree_remove_first : forall acc n0 rest,
  filter ism acc = n0 :: rest ->
  filter ism (tree_remove n0 acc) = rest
  /\ filter (fun n => negb (ism n)) (tree_remove n0 acc)
     = filter (fun n => negb (ism n)) acc.
Proof.
  induction acc as [|x r IH]; intros n0 rest H; [discriminate|].
  cbn [filter tree_remove] in H |- *. destruct (ism x) eqn:Ix.
  - injection H as <- Hr. assert (E : node_eqb x x = true)
      by (apply node_eqb_eq; reflexivity).
    rewrite E. cbn [negb]. auto.
  - destruct (node_eqb x n0) eqn:E.
    + apply node_eqb_eq in E. subst x.
      assert (Hin : In n0 (filter ism r)) by (rewrite H; left; reflexivity).
      apply filter_In in Hin. destruct Hin as [_ Hin]. congruence.
    + cbn [filter negb]. rewrite Ix. cbn [negb].
      destruct (IH n0 rest H) as [I1 I2]. rewrite I1, I2. auto.
Qed.

Lemma removeFromTree_fold : forall l acc,
  filter ism acc = filter ism l ->
  let res := fold_left (fun acc n => if Nat.eqb (node_marker n) m
                                     then tree_remove n acc else acc) l acc in
  filter ism res = []
  /\ filter (fun n => negb (ism n)) res = filter (fun n => negb (ism n)) acc.
Proof.
  induction l as [|n0 l IH]; intros acc H; cbn zeta.
  - cbn [fold_left]. auto.
  - cbn [fold_left]. cbn [filter] in H. fold (ism n0).
    destruct (ism n0) eqn:In0.
    + destruct (tree_remove_first acc n0 (filter ism l) H) as [T1 T2].
      destruct (IH (tree_remove n0 acc) T1) as [I1 I2]. rewrite <- T2.
      auto.
    + apply IH. exact H.
Qed.

Lemma filter_all_false : forall (l : list Node),
  filter ism l = [] -> filter (fun n => negb (ism n)) l = l.
Proof.
  induction l as [|x r IH]; intros H; [reflexivity|].
  cbn [filter] in H |- *. destruct (ism x); [discriminate|].
  cbn [negb]. rewrite IH; auto.
Qed.

(** The loop of [removeMarker_] removes exactly the nodes of [m]. *)
Lemma removeFromTree_filter : forall t,
  removeFromTree m t = filter (fun n => negb (Nat.eqb (node_marker n) m)) t.
Proof.
  intros t. unfold removeFromTree.
  destruct (removeFromTree_fold t t eq_refl) as [R1 R2].
  rewrite <- (filter_all_false _ R1). exact R2.
Qed.

End TreeRemoval.

Lemma indexOf_None : forall m l, indexOf m l = None <-> ~ In m l.
Proof.
  intros m. induction l as [|x r IH]; cbn; [tauto|].
  destruct (Nat.eqb_spec x m) as [E|E].
  - split; [discriminate|]. intros H. exfalso. apply H. left. exact E.
  - destruct (indexOf m r); cbn; split; intros H.
    + discriminate.
    + exfalso. apply H. right. destruct (in_dec Nat.eq_dec m r) as [K|K];
        [exact K|]. apply IH in K. discriminate.
    + intros [K|K]; [congruence|]. apply (proj1 IH eq_refl). exact K.
    + reflexivity.
Qed.

Lemma indexOf_split : forall m l i, indexOf m l = Some i ->
  exists pre post, l = pre ++ m :: post /\ ~ In m pre
                   /\ splice1 i l = pre ++ post.
Proof.
  intros m. induction l as [|x r IH]; intros i H; cbn in H; [discriminate|].
  destruct (Nat.eqb_spec x m) as [E|E].
  - injection H as <-. subst x. exists [], r. cbn. auto.
  - destruct (indexOf m r) as [j|] eqn:J; cbn in H; [|discriminate].
    injection H as <-. destruct (IH j eq_refl) as (pre & post & L & N & S).
    exists (x :: pre), post. cbn. rewrite S, <- L. split; [reflexivity|].
    split; [|reflexivity]. intros [K|K]; [congruence|contradiction].
Qed.

Section Removal.

Variable bounds_extend : LatLngBounds -> LatLng -> LatLngBounds.
Variable bounds_contains : LatLngBounds -> LatLng -> bool.
Variable getPosition : Marker -> LatLng.
Variable search : list Node -> Rect -> list Node.
Variable cfg : Config.

(** C6: [removeMarker m] with the default [opt_nodraw]. On a marker that is
    not in [markers_] it returns [false] and the engine is unchanged. On a
    tracked marker it returns [true] (unless the clustering pass throws);
    the first occurrence of [m] leaves [markers_] (so [m] is no longer
    tracked when it was registered once), every node of [m] leaves the
    spatial index and nothing else does, and the result is the viewport
    reset ([clusters_] emptied) followed by a clustering pass. *)
Theorem removeMarker_tracked_untracked : forall v m e,
  (~ In m (markers_ e) ->
     removeMarker bounds_extend bounds_contains getPosition search cfg v
       m false e = Some (false, e))
  /\ (In m (markers_ e) ->
      exists e1,
        removeMarker bounds_extend bounds_contains getPosition search cfg v
          m false e
        = option_map (fun e2 => (true, e2))
            (createClusters_ bounds_extend bounds_contains getPosition search
               cfg v (resetViewport false e1))
        /\ clusters_ (resetViewport false e1) = []
        /\ tree_ e1 = filter (fun n => negb (Nat.eqb (node_marker n) m)) (tree_ e)
        /\ ~ In m (map node_marker (tree_ e1))
        /\ (exists pre post, markers_ e = pre ++ m :: post /\ ~ In m pre
                             /\ markers_ e1 = pre ++ post)
        /\ (NoDup (markers_ e) -> ~ In m (markers_ e1))).
Proof.
  intros v m e. split.
  - intros N. unfold removeMarker, removeMarker_.
    apply indexOf_None in N. rewrite N. reflexivity.
  - intros Hin. unfold removeMarker, removeMarker_.
    destruct (indexOf m (markers_ e)) as [i|] eqn:I.
    2:{ apply indexOf_None in I. contradiction. }
    destruct (indexOf_split m (markers_ e) i I) as (pre & post & L & N & S).
    eexists. split; [reflexivity|]. cbn [markers_ tree_].
    rewrite removeFromTree_filter. split; [reflexivity|].
    split; [reflexivity|]. split.
    + intros K. apply in_map_iff in K. destruct K as (n & Hn & K).
      apply filter_In in K. destruct K as [_ K].
      rewrite Hn, Nat.eqb_refl in K. discriminate.
    + split; [exists pre, post; auto|].
      intros D. rewrite S. rewrite L in D.
      apply NoDup_remove_2 in D. exact D.
Qed.

End Removal.

(** * Runs on concrete inputs *)

Lemma ex_added_reachable :
  reachable ex_bounds_extend ex_bounds_contains ex_position ex_search ex_cfg2
    ex_added.
Proof.
  apply (r_addMarkers _ _ _ _ _ ex_ready (ex_viewBox 5) [1; 5]%nat false).
  - apply (r_onAdd _ _ _ _ _ (initEngine ex_fl) (ex_viewBox 5)).
    + apply r_init.
    + vm_compute. reflexivity.
  - intros m _. vm_compute. reflexivity.
  - vm_compute. reflexivity.
Qed.

(** C1 on the example: with markers 1 and 2 in view and a grid of 2, the
    pass creates the single cluster [1; 2]. *)
Lemma createClusters_greedy_pass_witness :
  exists e', ex_createClusters (ex_viewBox 5) (ex_engine true) = Some e'
             /\ map c_markers (clusters_ e') = [[1; 2]%nat].
Proof.
  destruct (createClusters_greedy_pass ex_bounds_extend ex_bounds_contains
              ex_position ex_search ex_cfg2 (ex_viewBox 5) (ex_engine true)
              ex_box eq_refl eq_refl) as (e' & H1 & _ & _ & H4 & _).
  exists e'. split; [exact H1|]. rewrite H4. vm_compute. reflexivity.
Defined.

(** C2 on the example: the state after [onAdd] and [addMarkers([1; 5])]
    keeps the membership invariant, and marker 5, left unclustered by the
    pass, is not clusterable. *)
Lemma reachable_membership_invariant_witness :
  membershipInv ex_added
  /\ isAdded (flags ex_added) 5%nat = false
  /\ isClusterable ex_cfg2 5%nat = false.
Proof.
  pose proof ex_added_reachable as R.
  split; [exact (proj1 (reachable_membership_invariant _ _ _ _ _ _ R))|].
  split; vm_compute; reflexivity.
Defined.

(** C3 on the example: with [minimumClusterSize = 3] and no maximal zoom,
    adding marker 3 to a cluster of markers 1 and 2 (both on the map, icon
    hidden) hides all three and shows the icon. *)
Lemma addMarker_min_cluster_size_3_witness :
  let '(b, fl3, c3) :=
    cluster_addMarker ex_bounds_extend ex_position
      (ex_cfg 2 3 None false (fun _ => true)) (ex_viewBox 5)
      (mkFlags (fun x => Nat.eqb x 1 || Nat.eqb x 2)
               (fun x => Nat.eqb x 1 || Nat.eqb x 2))
      (mkCluster 0 [1; 2]%nat (Some (ex_position 1%nat)) None false None)
      3%nat in
  b = true /\ c_iconVisible c3 = true
  /\ forall x, In x (c_markers c3) -> onMap fl3 x = false.
Proof.
  pose proof (proj2 (addMarker_min_cluster_size_3 ex_bounds_extend ex_position
    (ex_cfg 2 3 None false (fun _ => true)) (ex_viewBox 5) eq_refl eq_refl
    (mkFlags (fun x => Nat.eqb x 1 || Nat.eqb x 2)
             (fun x => Nat.eqb x 1 || Nat.eqb x 2))
    (mkCluster 0 [1; 2]%nat (Some (ex_position 1%nat)) None false None)
    3%nat) eq_refl) as H.
  destruct (cluster_addMarker _ _ _ _ _ _ _) as [[b fl3] c3].
  destruct H as (Hb & _ & Hm & _ & H3 & _).
  destruct H3 as [A1 A2]; [rewrite Hm; reflexivity|]. auto.
Defined.

(** C4 on the example: the second [redraw] returns the state of the
    first. *)
Lemma redraw_twice_idempotent_witness :
  exists e1, ex_redraw (ex_engine true) = Some e1 /\ ex_redraw e1 = Some e1.
Proof.
  destruct (ex_redraw (ex_engine true)) as [e1|] eqn:R1.
  2: { vm_compute in R1. discriminate. }
  destruct (ex_redraw e1) as [e2|] eqn:R2.
  - exists e1. split; [reflexivity|]. rewrite R2. f_equal.
    exact (redraw_twice_idempotent ex_bounds_extend ex_bounds_contains
             ex_position ex_search ex_cfg2 (ex_viewBox 5) (ex_engine true)
             e1 e2 R1 R2).
  - vm_compute in R1. injection R1 as <-. vm_compute in R2. discriminate.
Defined.

(** C5 on the example: markers 0, 2 and 4 sit at (0,0), (0,2) and (0,4);
    added in turn to a new cluster in average-center mode they give the
    centers (0,0), (0,1), (0,2). *)
Lemma addMarker_average_center_witness :
  let cfg := ex_cfg 2 2 None true (fun _ => true) in
  let addM := cluster_addMarker ex_bounds_extend ex_position cfg (ex_viewBox 5) in
  let '(_, fl1, c1) := addM ex_fl (newCluster 0) 0%nat in
  let '(_, fl2, c2) := addM fl1 c1 2%nat in
  let '(_, _, c3) := addM fl2 c2 4%nat in
  centerIs c1 0 0 /\ centerIs c2 0 1 /\ centerIs c3 0 2.
Proof.
  exact (proj2 (proj2 (addMarker_average_center ex_bounds_extend ex_position
    (ex_cfg 2 2 None true (fun _ => true)) (ex_viewBox 5) eq_refl))
    ex_fl 0%nat 0%nat 2%nat 4%nat ltac:(discriminate) ltac:(discriminate)
    ltac:(discriminate) eq_refl eq_refl eq_refl).
Defined.

(** C6 on the example: removing the untracked marker 7 returns [false]
    and changes nothing; removing marker 1 returns [true] and leaves
    marker 2 alone in [markers_], in the index and in the one cluster. *)
Lemma removeMarker_tracked_untracked_witness :
  removeMarker ex_bounds_extend ex_bounds_contains ex_position ex_search
    ex_cfg2 (ex_viewBox 5) 7%nat false (ex_engine true)
  = Some (false, ex_engine true)
  /\ exists e1,
     removeMarker ex_bounds_extend ex_bounds_contains ex_position ex_search
       ex_cfg2 (ex_viewBox 5) 1%nat false (ex_engine true)
     = option_map (fun e2 => (true, e2))
         (ex_createClusters (ex_viewBox 5) (resetViewport false e1))
     /\ markers_ e1 = [2%nat] /\ map node_marker (tree_ e1) = [2%nat].
Proof.
  destruct (removeMarker_tracked_untracked ex_bounds_extend ex_bounds_contains
              ex_position ex_search ex_cfg2 (ex_viewBox 5) 1%nat
              (ex_engine true)) as [_ T].
  destruct (T (or_introl eq_refl)) as (e1 & H1 & _ & H3 & _ & H5 & _).
  split.
  - apply (proj1 (removeMarker_tracked_untracked ex_bounds_extend
             ex_bounds_contains ex_position ex_search ex_cfg2 (ex_viewBox 5)
             7%nat (ex_engine true))).
    cbn. intros [K|[K|K]]; discriminate || contradiction.
  - exists e1. split; [exact H1|]. split.
    + destruct H5 as (pre & post & L & N & M). rewrite M.
      unfold ex_engine in L. cbn [markers_] in L.
      destruct pre as [|x pre]; cbn in L.
      * injection L as E. subst post. reflexivity.
      * injection L as E1 E2. exfalso. apply N. left. exact (eq_sym E1).
    + rewrite H3. vm_compute. reflexivity.
Defined.

(** C7 on the example: with [maxZoom] 12 and the map at zoom 14,
    refreshing a cluster returns it unchanged and puts its members on the
    map. *)
Lemma updateIcon_max_zoom_witness :
  let '(fl', c') := updateIcon (ex_cfg 2 2 (Some 12) false (fun _ => true))
                      (ex_viewBox 14) ex_fl ex_shown_cluster in
  c' = ex_shown_cluster /\ onMap fl' 1%nat = true /\ onMap fl' 2%nat = true.
Proof.
  pose proof (proj1 (updateIcon_max_zoom ex_bounds_extend ex_position
    (ex_cfg 2 2 (Some 12) false (fun _ => true)) (ex_viewBox 14)) eq_refl
    ex_fl ex_shown_cluster) as H.
  destruct (updateIcon _ _ _ _) as [fl' c']. destruct H as (H1 & _ & H3).
  split; [exact H1|]. split; apply H3; cbn; auto.
Defined.

(** C8 on the example: with undefined map bounds the pass is skipped on a
    clusterer that is not ready, and throws on a ready one. *)
Lemma createClusters_undefined_bounds_witness :
  ex_createClusters (ex_view None 5) (ex_engine false) = Some (ex_engine false)
  /\ ex_createClusters (ex_view None 5) (ex_engine true) = None.
Proof.
  destruct (createClusters_undefined_bounds ex_bounds_extend ex_bounds_contains
              ex_position ex_search ex_cfg2 (ex_view None 5) (ex_engine false)
              eq_refl) as [H _].
  destruct (createClusters_undefined_bounds ex_bounds_extend ex_bounds_contains
              ex_position ex_search ex_cfg2 (ex_view None 5) (ex_engine true)
              eq_refl) as [_ K].
  split; [exact (H eq_refl) | exact (K eq_refl)].
Defined.

(** C9 on the example: a pass on a clusterer that is not ready returns it
    unchanged. *)
Lemma createClusters_skipped_until_ready_witness :
  ex_createClusters (ex_viewBox 5) (ex_engine false) = Some (ex_engine false)
  /\ ex_redraw (ex_engine false) = Some (ex_engine false).
Proof.
  destruct (createClusters_skipped_until_ready ex_bounds_extend
              ex_bounds_contains ex_position ex_search ex_cfg2 (ex_viewBox 5)
              (ex_engine false) eq_refl) as (H1 & H2 & _).
  split; [exact H1 | exact H2].
Defined.

(** C10 on the example: [{zoomOnClick: false, minimumClusterSize: 0,
    gridSize: 0, maxZoom: 0}] gives the defaults. *)
Lemma constructor_falsy_options_defaulted_witness :
  let o := [("zoomOnClick", JBool false); ("minimumClusterSize", JNum 0);
            ("gridSize", JNum 0); ("maxZoom", JNum 0)] in
  f_zoomOnClick (constructorFields o) = JBool true
  /\ f_minClusterSize (constructorFields o) = JNum 2
  /\ f_gridSize (constructorFields o) = JNum 60
  /\ f_maxZoom (constructorFields o) = JNull.
Proof.
  intros o.
  destruct (constructor_falsy_options_defaulted o)
    as (G & M & Z & Zc & _).
  split; [apply Zc | split; [apply M | split; [apply G | apply Z]]];
    reflexivity.
Defined.

(** * Counterexamples *)

(** C2: after [onAdd] and [addMarkers([1; 5])] with marker 5 not
    clusterable, marker 5 is tracked, inside the viewport of the pass that
    ran, and still unclustered.  Adding marker 1, which is in an active
    cluster, once more resets its flag, and the pass that follows puts it
    in a second cluster. *)
Lemma membership_invariant_counterexample :
  reachable ex_bounds_extend ex_bounds_contains ex_position ex_search ex_cfg2
    ex_added
  /\ ready_ ex_ready = true
  /\ In 5%nat (markers_ ex_added)
  /\ isAdded (flags ex_added) 5%nat = false
  /\ ex_bounds_contains ex_box (ex_position 5%nat) = true
  /\ ex_bounds_contains (passBounds ex_bounds_extend ex_cfg2 (ex_viewBox 5) ex_box)
       (ex_position 5%nat) = true
  /\ isAdded (flags ex_added) 1%nat = true
  /\ cnt (clusters_ ex_added) 1%nat = 1%nat
  /\ match addMarker ex_bounds_extend ex_bounds_contains ex_position ex_search
             ex_cfg2 (ex_viewBox 5) 1%nat false ex_added with
     | Some e' => isAdded (flags e') 1%nat = true
                  /\ cnt (clusters_ e') 1%nat = 2%nat
     | None => False
     end.
Proof.
  split; [exact ex_added_reachable|].
  vm_compute. repeat split; auto.
Qed.

(** C3: with [minimumClusterSize = 3], [maxZoom] 10 and the map at zoom
    12, adding markers 1, 2 and 3 to a new cluster leaves all three on the
    map and the icon hidden. *)
Lemma min_cluster_size_3_counterexample :
  let '(fl', c') :=
    cluster_addAll ex_bounds_extend ex_position
      (ex_cfg 2 3 (Some 10) false (fun _ => true)) (ex_viewBox 12) ex_fl
      (newCluster 0) [1; 2; 3]%nat in
  length (c_markers c') = 3%nat
  /\ onMap fl' 1%nat = true /\ onMap fl' 2%nat = true /\ onMap fl' 3%nat = true
  /\ c_iconVisible c' = false.
Proof. vm_compute. repeat split. Qed.

(** C7: with [maxZoom] 12 and the map at zoom 14, refreshing a cluster
    whose icon is shown leaves the icon shown. *)
Lemma max_zoom_icon_counterexample :
  let '(_, c') := updateIcon (ex_cfg 2 2 (Some 12) false (fun _ => true))
                    (ex_viewBox 14) ex_fl ex_shown_cluster in
  c_iconVisible c' = true.
Proof. vm_compute. reflexivity. Qed.

(** C8: on a ready clusterer, a pass with undefined map bounds throws
    ([None]) instead of returning the state. *)
Lemma undefined_bounds_counterexample :
  ex_createClusters (ex_view None 5) (ex_engine true) = None.
Proof. vm_compute. reflexivity. Qed.

(** C6: on the ready clusterer tracking markers 1 and 2, registering
    marker 1 a second time and then removing it returns [true] while marker
    1 stays tracked; and with undefined map bounds, removing the tracked
    marker 1 throws ([None]) in the pass that follows. *)
Lemma removeMarker_tracked_counterexample :
  match addMarker ex_bounds_extend ex_bounds_contains ex_position ex_search
          ex_cfg2 (ex_viewBox 5) 1%nat true (ex_engine true) with
  | Some e1 =>
      In 1%nat (markers_ e1)
      /\ match removeMarker ex_bounds_extend ex_bounds_contains ex_position
                 ex_search ex_cfg2 (ex_viewBox 5) 1%nat false e1 with
         | Some (b, e2) => b = true /\ In 1%nat (markers_ e2)
         | None => False
         end
  | None => False
  end
  /\ In 1%nat (markers_ (ex_engine true))
  /\ removeMarker ex_bounds_extend ex_bounds_contains ex_position ex_search
       ex_cfg2 (ex_view None 5) 1%nat false (ex_engine true) = None.
Proof. vm_compute. repeat split; auto. Qed.

(** * Further properties of the code *)

(** ** Icon anchors *)

(** The icon offset for each anchor constant: the anchor [TOP_LEFT] is 0,
    which [anchor || MarkerClusterer.CENTER] replaces by [CENTER], so a
    [TOP_LEFT] icon is centered like one without anchor; every other
    constant shifts the icon by half or all of its width and height. *)
Theorem getPosFromLatLng_anchor_table : forall v latlng w h,
  let '(x, y) := fromLatLngToDivPixel v latlng in
  getPosFromLatLng_ v latlng w h None = (x - w / 2, y - h / 2)
  /\ getPosFromLatLng_ v latlng w h (Some TOP_LEFT) = (x - w / 2, y - h / 2)
  /\ getPosFromLatLng_ v latlng w h (Some TOP) = (x - w / 2, y)
  /\ getPosFromLatLng_ v latlng w h (Some TOP_RIGHT) = (x - w, y)
  /\ getPosFromLatLng_ v latlng w h (Some CENTER_LEFT) = (x, y - h / 2)
  /\ getPosFromLatLng_ v latlng w h (Some CENTER) = (x - w / 2, y - h / 2)
  /\ getPosFromLatLng_ v latlng w h (Some CENTER_RIGHT) = (x - w, y - h / 2)
  /\ getPosFromLatLng_ v latlng w h (Some BOTTOM_LEFT) = (x, y - h)
  /\ getPosFromLatLng_ v latlng w h (Some BOTTOM) = (x - w / 2, y - h)
  /\ getPosFromLatLng_ v latlng w h (Some BOTTOM_RIGHT) = (x - w, y - h).
Proof.
  intros v latlng w h. unfold getPosFromLatLng_.
  destruct (fromLatLngToDivPixel v latlng) as [x y].
  repeat split.
Qed.

(** ** The CSS of a cluster icon *)

Lemma iconWrite_size_props : forall ws o k,
  k = "height_" \/ k = "width_" ->
  get (fold_left iconWrite ws o) k = get o k.
Proof.
  induction ws as [|w r IH]; intros o k Hk; [reflexivity|].
  cbn [fold_left]. rewrite IH by exact Hk.
  destruct Hk as [->| ->]; destruct w; reflexivity.
Qed.

Lemma newClusterIcon_size_props : forall fields cluster map k,
  k = "height_" \/ k = "width_" ->
  get (newClusterIcon fields cluster map) k = JUndefined.
Proof.
  intros fields cluster map k Hk. unfold newClusterIcon.
  destruct (truthy (f_clusterWidth fields) && truthy (f_clusterHeight fields)),
           (truthy (f_anchor fields));
    destruct Hk as [->| ->]; reflexivity.
Qed.

(** [createCss] reads [this.height_] and [this.width_], which no code
    writes (the constructors write [width] and [height]): whatever the
    options and the later writes on the icon, the CSS text is the one of an
    object without properties, with [height:undefinedpx; width:undefinedpx;]. *)
Theorem createCss_size_undefined : forall numToString funToString options
  cluster map ws pos,
  let o := fold_left iconWrite ws
             (newClusterIcon (constructorFields options) cluster map) in
  createCss numToString funToString o pos = createCss numToString funToString [] pos
  /\ jsToString numToString funToString (get o "height_") = "undefined"
  /\ jsToString numToString funToString (get o "width_") = "undefined".
Proof.
  intros numToString funToString options cluster map ws pos o.
  assert (H : get o "height_" = JUndefined).
  { unfold o. rewrite iconWrite_size_props by (left; reflexivity).
    apply newClusterIcon_size_props. left. reflexivity. }
  assert (W : get o "width_" = JUndefined).
  { unfold o. rewrite iconWrite_size_props by (right; reflexivity).
    apply newClusterIcon_size_props. right. reflexivity. }
  unfold createCss. rewrite H, W. auto.
Qed.

(** ** The map listeners *)

Section ListenerFacts.

Variable bounds_extend : LatLngBounds -> LatLng -> LatLngBounds.
Variable bounds_contains : LatLngBounds -> LatLng -> bool.
Variable getPosition : Marker -> LatLng.
Variable search : list Node -> Rect -> list Node.
Variable cfg : Config.

Let run := runMapEvents bounds_extend bounds_contains getPosition search cfg.
Let step := onMapEvent bounds_extend bounds_contains getPosition search cfg.

Lemma onMapEvent_flag : forall zc e ev,
  fst (step (zc, e) ev) = match ev with
                          | ZoomChanged z => onZoomChanged z zc
                          | Idle _ => zc
                          end.
Proof.
  intros zc e [z|v]; [reflexivity|]. unfold step, onMapEvent.
  destruct zc;
    [destruct (createClusters_ _ _ _ _ _ _ (resetViewport false e))
    | destruct (createClusters_ _ _ _ _ _ _ e)]; reflexivity.
Qed.

Lemma runMapEvents_flag : forall evs zc e,
  fst (run (zc, e) evs) = zc || existsb nonzeroZoom evs.
Proof.
  unfold run, runMapEvents. fold step.
  induction evs as [|ev r IH]; intros zc e.
  - cbn. rewrite orb_false_r. reflexivity.
  - cbn [fold_left]. pose proof (onMapEvent_flag zc e ev) as F.
    destruct (step (zc, e) ev) as [zc1 e1]. cbn [fst] in F. subst zc1.
    rewrite IH. cbn [existsb]. destruct ev as [z|v]; cbn [nonzeroZoom].
    + unfold onZoomChanged. destruct zc; cbn.
      * destruct (negb (Qeq_bool z 1)); reflexivity.
      * destruct (negb (Qeq_bool z 0)); reflexivity.
    + reflexivity.
Qed.

(** The constructor's [zoomChanged] flag is never reset: after any
    sequence of map events it is set exactly when it was set before or a
    [zoom_changed] event reported a zoom other than 0 (a zoom of 0 equals
    [false] for [!=]).  An [idle] event runs [repaint] (all clusters
    rebuilt) when the flag is set and [redraw] otherwise, so after the
    first zoom change every [idle] event reclusters from scratch. *)
Theorem zoomChanged_never_reset : forall pre v zc e,
  fst (run (zc, e) pre) = zc || existsb nonzeroZoom pre
  /\ snd (run (zc, e) (pre ++ [Idle v]))
     = let e' := snd (run (zc, e) pre) in
       if zc || existsb nonzeroZoom pre then
         match repaint bounds_extend bounds_contains getPosition search cfg v e' with
         | Some e2 => e2
         | None => resetViewport false e'
         end
       else
         match redraw bounds_extend bounds_contains getPosition search cfg v e' with
         | Some e2 => e2
         | None => e'
         end.
Proof.
  intros pre v zc e. split; [apply runMapEvents_flag|].
  pose proof (runMapEvents_flag pre zc e) as F.
  unfold run, runMapEvents in F |- *. rewrite fold_left_app. cbn [fold_left].
  destruct (fold_left _ pre (zc, e)) as [zc' e'].
  cbn [fst snd] in F |- *. rewrite <- F.
  unfold onMapEvent, repaint, redraw. destruct zc'.
  - destruct (createClusters_ _ _ _ _ _ _ (resetViewport false e')); reflexivity.
  - destruct (createClusters_ _ _ _ _ _ _ e'); reflexivity.
Qed.

End ListenerFacts.

(** ** Registering and removing markers *)

Lemma pushes_spec : forall ms e,
  let e1 := fold_left pushMarkerTo_ ms e in
  markers_ e1 = markers_ e ++ ms /\ clusters_ e1 = clusters_ e
  /\ ready_ e1 = ready_ e /\ tree_ e1 = tree_ e
  /\ onMap (flags e1) = onMap (flags e)
  /\ forall x, isAdded (flags e1) x = if mem x ms then false else isAdded (flags e) x.
Proof.
  induction ms as [|m r IH]; intros e; cbn zeta.
  - cbn [fold_left]. rewrite app_nil_r. repeat split.
  - cbn [fold_left]. destruct (IH (pushMarkerTo_ e m)) as (H1 & H2 & H3 & H4 & H5 & H6).
    cbn [markers_ clusters_ ready_ tree_ flags onMap isAdded pushMarkerTo_] in *.
    rewrite H1, <- app_assoc. repeat split; auto.
    intros x. rewrite H6. rewrite mem_cons. unfold upd.
    destruct (Nat.eqb x m), (mem x r); reflexivity.
Qed.

Section Frame.

Variable bounds_extend : LatLngBounds -> LatLng -> LatLngBounds.
Variable bounds_contains : LatLngBounds -> LatLng -> bool.
Variable getPosition : Marker -> LatLng.
Variable search : list Node -> Rect -> list Node.
Variable cfg : Config.

Let pass v := createClusters_ bounds_extend bounds_contains getPosition search cfg v.

(** A pass never changes [markers_], [tree_] or [ready_]. *)
Lemma pass_frame : forall v e e', pass v e = Some e' ->
  markers_ e' = markers_ e /\ tree_ e' = tree_ e /\ ready_ e' = ready_ e.
Proof.
  intros v e e' H. unfold pass, createClusters_ in H.
  destruct (ready_ e) eqn:R; cbn [negb] in H.
  2: { injection H as <-. auto. }
  destruct (mv_bounds v); [|discriminate].
  destruct (createLoop _ _ _ _ _ _ _ _ _ _ _ _) as [[fl cs] nx].
  injection H as <-. cbn. auto.
Qed.

Lemma addMarkers_frame : forall v ms nodraw e e1,
  addMarkers bounds_extend bounds_contains getPosition search cfg v ms nodraw e
    = Some e1 ->
  markers_ e1 = markers_ e ++ ms
  /\ tree_ e1 = tree_ e ++ map (getMarkerNode getPosition) ms.
Proof.
  intros v ms nodraw e e1 H. unfold addMarkers in H. fold (pass v) in H.
  destruct (pushes_spec ms e) as (P1 & _ & _ & P4 & _).
  set (e2 := setTree _ _) in H.
  assert (M : markers_ e2 = markers_ e ++ ms) by exact P1.
  assert (T : tree_ e2 = tree_ e ++ map (getMarkerNode getPosition) ms).
  { unfold e2. cbn [tree_ setTree]. rewrite P4. reflexivity. }
  destruct nodraw; cbn [negb] in H.
  - injection H as <-. auto.
  - destruct (pass_frame v e2 e1 H) as (F1 & F2 & _). rewrite F1, F2. auto.
Qed.

Lemma addMarker_frame : forall v m nodraw e e1,
  addMarker bounds_extend bounds_contains getPosition search cfg v m nodraw e
    = Some e1 ->
  markers_ e1 = markers_ e ++ [m]
  /\ tree_ e1 = tree_ e ++ [getMarkerNode getPosition m].
Proof.
  intros v m nodraw e e1 H. unfold addMarker in H. fold (pass v) in H.
  set (e2 := setTree _ _) in H.
  assert (M : markers_ e2 = markers_ e ++ [m]) by reflexivity.
  assert (T : tree_ e2 = tree_ e ++ [getMarkerNode getPosition m]) by reflexivity.
  destruct nodraw; cbn [negb] in H.
  - injection H as <-. auto.
  - destruct (pass_frame v e2 e1 H) as (F1 & F2 & _). rewrite F1, F2. auto.
Qed.

End Frame.

Lemma filter_notin : forall m l,
  ~ In m l -> filter (fun x => negb (Nat.eqb x m)) l = l.
Proof.
  intros m. induction l as [|a r IH]; intros H; [reflexivity|].
  cbn. destruct (Nat.eqb_spec a m) as [E|E].
  - exfalso. apply H. left. exact E.
  - cbn. rewrite IH; [reflexivity|]. intros K. apply H. right. exact K.
Qed.

Lemma mem_filter : forall y f l, mem y (filter f l) = mem y l && f y.
Proof.
  intros y f. induction l as [|a r IH]; [reflexivity|].
  cbn [filter]. rewrite mem_cons.
  destruct (f a) eqn:Fa; rewrite ?mem_cons, IH;
    destruct (Nat.eqb_spec y a) as [->|Ne]; rewrite ?Fa; cbn [orb andb];
    repeat match goal with |- context [mem ?z r] => destruct (mem z r) end;
    repeat match goal with |- context [f ?z] => destruct (f z) end;
    reflexivity.
Qed.

Lemma existsb_ext_In : forall (f g : Marker -> bool) l,
  (forall x, In x l -> f x = g x) -> existsb f l = existsb g l.
Proof.
  intros f g. induction l as [|a r IH]; intros H; [reflexivity|].
  cbn. rewrite (H a (or_introl eq_refl)), IH; [reflexivity|].
  intros x Hx. apply H. right. exact Hx.
Qed.

(** [removeMarker_] on a clusterer that tracks each marker once. *)
Lemma removeMarker__spec : forall m e,
  NoDup (markers_ e) ->
  let '(r, e1) := removeMarker_ m e in
  r = mem m (markers_ e)
  /\ markers_ e1 = filter (fun x => negb (Nat.eqb x m)) (markers_ e)
  /\ tree_ e1 = (if r then filter (fun n => negb (Nat.eqb (node_marker n) m)) (tree_ e)
                 else tree_ e)
  /\ clusters_ e1 = clusters_ e /\ ready_ e1 = ready_ e.
Proof.
  intros m e D. unfold removeMarker_.
  destruct (indexOf m (markers_ e)) as [i|] eqn:I.
  - destruct (indexOf_split m (markers_ e) i I) as (pre & post & L & N & S).
    cbn [markers_ tree_ clusters_ ready_]. rewrite removeFromTree_filter.
    assert (Hm : mem m (markers_ e) = true).
    { apply mem_In. rewrite L. apply in_or_app. right. left. reflexivity. }
    rewrite Hm, S. rewrite L in D |- *. apply NoDup_remove_2 in D.
    rewrite filter_app. cbn [filter]. rewrite Nat.eqb_refl. cbn [negb].
    rewrite !filter_notin; auto.
    + intros K. apply D. apply in_or_app. right. exact K.
  - apply indexOf_None in I.
    assert (Hm : mem m (markers_ e) = false).
    { destruct (mem m (markers_ e)) eqn:K; [|reflexivity].
      apply mem_In in K. contradiction. }
    rewrite Hm, filter_notin by exact I. auto.
Qed.

Lemma filter_true_id : forall (A : Type) (l : list A), filter (fun _ => true) l = l.
Proof. intros A. induction l as [|a r IH]; cbn; [reflexivity|]. rewrite IH. reflexivity. Qed.

Lemma filter_filter : forall (A : Type) (f g : A -> bool) l,
  filter f (filter g l) = filter (fun x => g x && f x) l.
Proof.
  intros A f g. induction l as [|a r IH]; cbn; [reflexivity|].
  destruct (g a); cbn; [destruct (f a)|]; rewrite ?IH; reflexivity.
Qed.

Lemma removeMarkers_loop_spec : forall ms b e,
  NoDup (markers_ e) ->
  let '(b', e') := fold_left removeLoopStep ms (b, e) in
  b' = b || existsb (fun m => mem m (markers_ e)) ms
  /\ markers_ e' = filter (fun x => negb (mem x ms)) (markers_ e)
  /\ tree_ e' = filter (fun n => negb (mem (node_marker n) ms
                                       && mem (node_marker n) (markers_ e))) (tree_ e)
  /\ clusters_ e' = clusters_ e /\ ready_ e' = ready_ e.
Proof.
  induction ms as [|m r IH]; intros b e D.
  - cbn. rewrite orb_false_r. repeat split; symmetry; apply filter_true_id.
  - cbn [fold_left]. unfold removeLoopStep at 2.
    pose proof (removeMarker__spec m e D) as R.
    destruct (removeMarker_ m e) as [r0 e1].
    destruct R as (R1 & R2 & R3 & R4 & R5).
    assert (D1 : NoDup (markers_ e1)) by (rewrite R2; apply NoDup_filter; exact D).
    specialize (IH (b || r0) e1 D1).
    destruct (fold_left removeLoopStep r (b || r0, e1)) as [b' e'].
    destruct IH as (I1 & I2 & I3 & I4 & I5).
    rewrite I4, I5, R4, R5. split; [|split; [|split; [|split]]]; auto.
    + rewrite I1, R1, R2. cbn [existsb].
      destruct (mem m (markers_ e)) eqn:Mm; [destruct b; reflexivity|].
      rewrite orb_false_r. cbn [orb]. f_equal.
      apply existsb_ext_In. intros y _. rewrite mem_filter.
      destruct (Nat.eqb_spec y m) as [->|Ne]; [rewrite Mm; reflexivity|].
      rewrite andb_true_r. reflexivity.
    + rewrite I2, R2, filter_filter. apply filter_ext. intros x.
      rewrite mem_cons. destruct (Nat.eqb x m), (mem x r); reflexivity.
    + rewrite I3, R3, R2. destruct r0.
      * rewrite filter_filter. apply filter_ext. intros n.
        rewrite mem_cons, mem_filter. cbv beta.
        destruct (Nat.eqb_spec (node_marker n) m) as [E|E].
        -- rewrite E, <- R1. reflexivity.
        -- cbn [negb orb andb]. rewrite andb_true_r. reflexivity.
      * rewrite filter_notin.
        2: { intros K. apply mem_In in K. congruence. }
        apply filter_ext. intros n. rewrite mem_cons.
        destruct (Nat.eqb_spec (node_marker n) m) as [E|E].
        -- rewrite E, <- R1, !andb_false_r. reflexivity.
        -- reflexivity.
Qed.

Lemma filter_keep_In : forall (A : Type) (f : A -> bool) l,
  (forall x, In x l -> f x = true) -> filter f l = l.
Proof.
  intros A f. induction l as [|a r IH]; intros H; [reflexivity|].
  cbn. rewrite (H a (or_introl eq_refl)), IH; [reflexivity|].
  intros x Hx. apply H. right. exact Hx.
Qed.

Lemma filter_drop_In : forall (A : Type) (f : A -> bool) l,
  (forall x, In x l -> f x = false) -> filter f l = [].
Proof.
  intros A f. induction l as [|a r IH]; intros H; [reflexivity|].
  cbn. rewrite (H a (or_introl eq_refl)). apply IH.
  intros x Hx. apply H. right. exact Hx.
Qed.

Lemma mem_false : forall x l, ~ In x l -> mem x l = false.
Proof.
  intros x l H. destruct (mem x l) eqn:K; [|reflexivity].
  apply mem_In in K. contradiction.
Qed.

Section RemoveFacts.

Variable bounds_extend : LatLngBounds -> LatLng -> LatLngBounds.
Variable bounds_contains : LatLngBounds -> LatLng -> bool.
Variable getPosition : Marker -> LatLng.
Variable search : list Node -> Rect -> list Node.
Variable cfg : Config.

Lemma removeMarkers_cases : forall v ms nodraw e b e',
  removeMarkers bounds_extend bounds_contains getPosition search cfg v ms nodraw e
    = Some (b, e') ->
  let '(removed, e1) := fold_left removeLoopStep ms (false, e) in
  b = negb nodraw && removed /\ markers_ e' = markers_ e1 /\ tree_ e' = tree_ e1.
Proof.
  intros v ms nodraw e b e' H. unfold removeMarkers in H.
  change (removeMarkers_loop ms e) with (fold_left removeLoopStep ms (false, e)) in H.
  destruct (fold_left removeLoopStep ms (false, e)) as [removed e1].
  destruct (negb nodraw && removed) eqn:N.
  - destruct (createClusters_ bounds_extend bounds_contains getPosition search cfg v
                (resetViewport false e1)) as [e2|] eqn:P; [|discriminate].
    injection H as <- <-.
    destruct (pass_frame _ _ _ _ _ v _ _ P) as (F1 & F2 & _).
    split; [reflexivity|]. split; [exact F1|exact F2].
  - injection H as <- <-. auto.
Qed.

Lemma removeMarker_cases : forall v m nodraw e b e',
  removeMarker bounds_extend bounds_contains getPosition search cfg v m nodraw e
    = Some (b, e') ->
  let '(removed, e1) := removeMarker_ m e in
  b = negb nodraw && removed /\ markers_ e' = markers_ e1 /\ tree_ e' = tree_ e1.
Proof.
  intros v m nodraw e b e' H. unfold removeMarker in H.
  destruct (removeMarker_ m e) as [removed e1].
  destruct (negb nodraw && removed) eqn:N.
  - destruct (createClusters_ bounds_extend bounds_contains getPosition search cfg v
                (resetViewport false e1)) as [e2|] eqn:P; [|discriminate].
    injection H as <- <-.
    destruct (pass_frame _ _ _ _ _ v _ _ P) as (F1 & F2 & _).
    split; [reflexivity|]. split; [exact F1|exact F2].
  - injection H as <- <-. auto.
Qed.

End RemoveFacts.

Lemma indexOf_In : forall m l, In m l -> exists i, indexOf m l = Some i.
Proof.
  intros m l H. destruct (indexOf m l) as [i|] eqn:I; [eauto|].
  apply indexOf_None in I. contradiction.
Qed.

Lemma indexOf_app_Some : forall m l r i,
  indexOf m l = Some i -> indexOf m (l ++ r) = Some i.
Proof.
  intros m. induction l as [|x l IH]; intros r i H; cbn in H |- *; [discriminate|].
  destruct (Nat.eqb x m); [exact H|].
  destruct (indexOf m l) as [j|] eqn:J; cbn in H; [|discriminate].
  injection H as <-. rewrite (IH r j eq_refl). reflexivity.
Qed.

Lemma splice1_app : forall m l r i,
  indexOf m l = Some i -> splice1 i (l ++ r) = splice1 i l ++ r.
Proof.
  intros m. induction l as [|x l IH]; intros r i H; cbn in H; [discriminate|].
  destruct (Nat.eqb x m).
  - injection H as <-. reflexivity.
  - destruct (indexOf m l) as [j|] eqn:J; cbn in H; [|discriminate].
    injection H as <-. cbn [app splice1]. rewrite (IH r j eq_refl). reflexivity.
Qed.

Lemma indexOf_app_notin : forall m l r, ~ In m l ->
  indexOf m (l ++ r) = option_map (Nat.add (length l)) (indexOf m r).
Proof.
  intros m. induction l as [|x l IH]; intros r N; cbn [app indexOf length].
  - destruct (indexOf m r); reflexivity.
  - destruct (Nat.eqb_spec x m) as [->|_]; [exfalso; apply N; left; reflexivity|].
    rewrite IH by (intros K; apply N; right; exact K).
    destruct (indexOf m r); reflexivity.
Qed.

Lemma splice1_app_len : forall (l r : list Marker) j,
  splice1 (length l + j) (l ++ r) = l ++ splice1 j r.
Proof.
  induction l as [|x l IH]; intros r j; [reflexivity|].
  cbn [length app Nat.add splice1]. rewrite IH. reflexivity.
Qed.

(** The loop of [removeMarkers] over markers registered after the prefix
    [l], none of them in [l]: every registration of the list goes, in
    whatever order, and so do all of their index nodes. *)
Lemma removeLoop_perm : forall l ms x b e,
  markers_ e = l ++ x -> (forall m, In m ms -> ~ In m l) -> Permutation x ms ->
  let '(b', e') := fold_left removeLoopStep ms (b, e) in
  markers_ e' = l
  /\ tree_ e' = filter (fun n => negb (mem (node_marker n) ms)) (tree_ e)
  /\ b' = b || negb (Nat.eqb (length ms) 0).
Proof.
  intros l. induction ms as [|m r IH]; intros x b e M N P.
  - apply Permutation_sym, Permutation_nil in P. subst x. cbn [fold_left length Nat.eqb negb].
    rewrite M, app_nil_r, orb_false_r. split; [reflexivity|split; [|reflexivity]].
    symmetry. apply filter_true_id.
  - assert (Hm : In m x) by (apply (Permutation_in _ (Permutation_sym P)); left; reflexivity).
    destruct (indexOf_In m x Hm) as [j J].
    destruct (indexOf_split m x j J) as (pre & post & XL & _ & S).
    assert (Nl : ~ In m l) by (apply N; left; reflexivity).
    cbn [fold_left]. unfold removeLoopStep at 2. unfold removeMarker_.
    rewrite M, (indexOf_app_notin m l x Nl), J. cbn [option_map].
    rewrite splice1_app_len, S.
    lazymatch goal with
    | |- context [fold_left removeLoopStep r (?b1, ?e1)] =>
        specialize (IH (pre ++ post) b1 e1)
    end.
    destruct (fold_left removeLoopStep r _) as [b' e'].
    destruct IH as (I1 & I2 & I3).
    + reflexivity.
    + intros y Hy. apply N. right. exact Hy.
    + apply Permutation_sym. eapply Permutation_cons_app_inv.
      rewrite <- XL. apply Permutation_sym. exact P.
    + split; [exact I1|split].
      * rewrite I2. cbn [tree_]. rewrite removeFromTree_filter, filter_filter.
        apply filter_ext. intros n. rewrite mem_cons.
        destruct (Nat.eqb (node_marker n) m), (mem (node_marker n) r); reflexivity.
      * rewrite I3. destruct b; reflexivity.
Qed.

Section Registration.

Variable bounds_extend : LatLngBounds -> LatLng -> LatLngBounds.
Variable bounds_contains : LatLngBounds -> LatLng -> bool.
Variable getPosition : Marker -> LatLng.
Variable search : list Node -> Rect -> list Node.
Variable cfg : Config.

(** [removeMarkers] on a clusterer that tracks each marker once: the
    returned flag is set exactly when a redraw was asked for and one of
    the markers was tracked; the tracked markers of the list leave
    [markers_] and the index loses exactly their nodes. *)
Theorem removeMarkers_removes : forall v ms nodraw e b e',
  NoDup (markers_ e) ->
  removeMarkers bounds_extend bounds_contains getPosition search cfg v ms nodraw e
    = Some (b, e') ->
  b = negb nodraw && existsb (fun m => mem m (markers_ e)) ms
  /\ markers_ e' = filter (fun x => negb (mem x ms)) (markers_ e)
  /\ tree_ e' = filter (fun n => negb (mem (node_marker n) ms
                                       && mem (node_marker n) (markers_ e))) (tree_ e).
Proof.
  intros v ms nodraw e b e' D H.
  pose proof (removeMarkers_cases _ _ _ _ _ v ms nodraw e b e' H) as K.
  pose proof (removeMarkers_loop_spec ms false e D) as L.
  destruct (fold_left removeLoopStep ms (false, e)) as [removed e1].
  destruct K as (K1 & K2 & K3). destruct L as (L1 & L2 & L3 & _).
  rewrite K1, L1, K2, K3. cbn [orb]. auto.
Qed.

(** [addMarkers(ms)] followed by [removeMarkers(ms)], on markers that were
    not tracked and have no node in the index (the list may repeat a
    marker, and [markers_] may already hold repeats), gives back
    [markers_] and the index as they were; the flag returned is set
    exactly when the second call may redraw and [ms] is not empty. *)
Theorem addMarkers_removeMarkers_roundtrip : forall v1 v2 ms nd1 nd2 e e1 b e2,
  (forall m, In m ms -> ~ In m (markers_ e)) ->
  (forall n, In n (tree_ e) -> ~ In (node_marker n) ms) ->
  addMarkers bounds_extend bounds_contains getPosition search cfg v1 ms nd1 e
    = Some e1 ->
  removeMarkers bounds_extend bounds_contains getPosition search cfg v2 ms nd2 e1
    = Some (b, e2) ->
  markers_ e2 = markers_ e /\ tree_ e2 = tree_ e
  /\ b = negb nd2 && negb (Nat.eqb (length ms) 0).
Proof.
  intros v1 v2 ms nd1 nd2 e e1 b e2 D T A R.
  destruct (addMarkers_frame _ _ _ _ _ v1 ms nd1 e e1 A) as [M1 T1].
  pose proof (removeMarkers_cases _ _ _ _ _ v2 ms nd2 e1 b e2 R) as K.
  pose proof (removeLoop_perm (markers_ e) ms ms false e1 M1 D
                (Permutation_refl ms)) as L.
  destruct (fold_left removeLoopStep ms (false, e1)) as [removed e3].
  destruct K as (K1 & K2 & K3). destruct L as (L1 & L2 & L3).
  rewrite K2, L1, K3, L2, T1. split; [reflexivity|split].
  - rewrite filter_app, (filter_drop_In _ _ (map _ ms)), app_nil_r.
    + apply filter_keep_In. intros n Hn. rewrite mem_false; [reflexivity|].
      exact (T n Hn).
    + intros n Hn. apply in_map_iff in Hn. destruct Hn as (m & <- & Hm).
      unfold node_marker, getMarkerNode. cbn [snd].
      rewrite (proj2 (mem_In m ms) Hm). reflexivity.
  - rewrite K1, L3. reflexivity.
Qed.

(** [addMarker] of a marker already tracked registers it a second time;
    a following [removeMarker] drops only its first registration, so the
    marker stays in [markers_] (and in [getTotalMarkers]) while all its
    nodes have left the index; the call returns [true] exactly when it may
    redraw. *)
Theorem addMarker_twice_remove_once : forall v1 v2 m nd1 nd2 e e1 b e2,
  In m (markers_ e) ->
  addMarker bounds_extend bounds_contains getPosition search cfg v1 m nd1 e
    = Some e1 ->
  removeMarker bounds_extend bounds_contains getPosition search cfg v2 m nd2 e1
    = Some (b, e2) ->
  getTotalMarkers e1 = S (getTotalMarkers e)
  /\ getTotalMarkers e2 = getTotalMarkers e
  /\ In m (markers_ e2)
  /\ (forall n, In n (tree_ e2) -> node_marker n <> m)
  /\ b = negb nd2.
Proof.
  intros v1 v2 m nd1 nd2 e e1 b e2 Hm A R.
  destruct (addMarker_frame _ _ _ _ _ v1 m nd1 e e1 A) as [M1 _].
  pose proof (removeMarker_cases _ _ _ _ _ v2 m nd2 e1 b e2 R) as K.
  destruct (indexOf_In m _ Hm) as [i I].
  assert (I1 : indexOf m (markers_ e1) = Some i)
    by (rewrite M1; apply indexOf_app_Some; exact I).
  unfold removeMarker_ in K. rewrite I1 in K. cbn [markers_ tree_] in K.
  destruct K as (K1 & K2 & K3).
  unfold getTotalMarkers. rewrite K2, K3, M1, (splice1_app m _ _ i I),
    removeFromTree_filter.
  destruct (indexOf_split m _ i I) as (pre & post & L & _ & Sp).
  rewrite Sp, L. split; [|split; [|split; [|split]]].
  - rewrite length_app. cbn [length]. lia.
  - rewrite !length_app. cbn [length]. lia.
  - apply in_or_app. right. left. reflexivity.
  - intros n Hn. apply filter_In in Hn. destruct Hn as [_ Hn]. intros E.
    rewrite E, Nat.eqb_refl in Hn. discriminate.
  - rewrite K1, andb_true_r. reflexivity.
Qed.

End Registration.

(** ** Finding the cluster of a marker *)

Section Membership2.

Variable bounds_extend : LatLngBounds -> LatLng -> LatLngBounds.
Variable bounds_contains : LatLngBounds -> LatLng -> bool.
Variable getPosition : Marker -> LatLng.
Variable search : list Node -> Rect -> list Node.
Variable cfg : Config.

Let pass v := createClusters_ bounds_extend bounds_contains getPosition search cfg v.

Lemma reachable_membershipInv : forall e,
  reachable bounds_extend bounds_contains getPosition search cfg e ->
  membershipInv e.
Proof.
  intros e R.
  induction R as [fl
    | e v m nodraw e' R I Hm H | e v ms nodraw e' R I Hm H
    | e v m nodraw b e' R I H | e v ms nodraw b e' R I H
    | e v e' R I H | e v e' R I H | e reset R I
    | e v nodraw e' R I H | e v e' R I H].
  - intros x [].
  - unfold addMarker in H. fold (pass v) in H.
    assert (J : membershipInv (pushMarkerTo_ e m)) by (apply push_inv; assumption).
    destruct nodraw; cbn [negb] in H.
    + injection H as <-. exact J.
    + eapply pass_inv'; [|exact H]. exact J.
  - unfold addMarkers in H. fold (pass v) in H.
    destruct (pushes_inv ms e I Hm) as [J _].
    destruct nodraw; cbn [negb] in H.
    + injection H as <-. exact J.
    + eapply pass_inv'; [|exact H]. exact J.
  - unfold removeMarker in H. fold (pass v) in H.
    pose proof (removeMarker__inv m e I) as J.
    destruct (removeMarker_ m e) as [removed e1]. cbn [snd] in J.
    destruct (negb nodraw && removed).
    + destruct (pass v (resetViewport false e1)) as [e2|] eqn:P; [|discriminate].
      injection H as _ <-. eapply pass_inv'; [|exact P]. apply resetViewport_inv.
    + injection H as _ <-. exact J.
  - unfold removeMarkers, removeMarkers_loop in H. fold (pass v) in H.
    pose proof (removeMarkers_loop_inv ms false e I) as J.
    destruct (fold_left _ ms (false, e)) as [removed e1]. cbn [snd] in J.
    destruct (negb nodraw && removed).
    + destruct (pass v (resetViewport false e1)) as [e2|] eqn:P; [|discriminate].
      injection H as _ <-. eapply pass_inv'; [|exact P]. apply resetViewport_inv.
    + injection H as _ <-. exact J.
  - eapply pass_inv'; [exact I|exact H].
  - eapply pass_inv'; [|exact H]. apply resetViewport_inv.
  - apply resetViewport_inv.
  - unfold clearMarkers in H. fold (pass v) in H.
    assert (J : membershipInv
                  (mkEngine [] (clusters_ (resetViewport true e))
                     (ready_ (resetViewport true e)) []
                     (flags (resetViewport true e))
                     (nextCluster (resetViewport true e)))) by (intros x []).
    destruct nodraw; cbn [negb] in H.
    + injection H as <-. exact J.
    + eapply pass_inv'; [|exact H]. exact J.
  - unfold setReady_ in H. fold (pass v) in H.
    destruct (ready_ e); cbn [negb] in H.
    + injection H as <-. exact I.
    + eapply pass_inv'; [|exact H]. exact I.
Qed.

End Membership2.

Lemma cnt_one_unique : forall cs x c c', cnt cs x = 1%nat ->
  In c cs -> mem x (c_markers c) = true ->
  In c' cs -> mem x (c_markers c') = true -> c = c'.
Proof.
  unfold cnt. induction cs as [|a r IH]; intros x c c' H Hc Mc Hc' Mc';
    [destruct Hc|].
  cbn [filter] in H. destruct (mem x (c_markers a)) eqn:Ma.
  - cbn [length] in H. injection H as H. apply length_zero_iff_nil in H.
    assert (Z : forall d, In d r -> mem x (c_markers d) = false).
    { intros d Hd. destruct (mem x (c_markers d)) eqn:Md; [|reflexivity].
      assert (K : In d (filter (fun c => mem x (c_markers c)) r))
        by (apply filter_In; auto).
      rewrite H in K. destruct K. }
    destruct Hc as [<-|Hc]; [|rewrite Z in Mc by exact Hc; discriminate].
    destruct Hc' as [<-|Hc']; [reflexivity|].
    rewrite Z in Mc' by exact Hc'. discriminate.
  - destruct Hc as [<-|Hc]; [congruence|].
    destruct Hc' as [<-|Hc']; [congruence|].
    exact (IH x c c' H Hc Mc Hc' Mc').
Qed.

Section MarkerCluster.

Variable bounds_extend : LatLngBounds -> LatLng -> LatLngBounds.
Variable bounds_contains : LatLngBounds -> LatLng -> bool.
Variable getPosition : Marker -> LatLng.
Variable search : list Node -> Rect -> list Node.
Variable cfg : Config.

(** In every state of [reachable] (no [removeCluster], and markers added
    only while they are members of no active cluster), [getMarkerCluster]
    of a tracked marker whose [isAdded] flag is set returns an active
    cluster (not [null]) that has the marker as a member, and it is the
    only active cluster that has it. *)
Theorem getMarkerCluster_reachable : forall e m,
  reachable bounds_extend bounds_contains getPosition search cfg e ->
  In m (markers_ e) -> isAdded (flags e) m = true ->
  exists c, getMarkerCluster e m = Some c /\ In c (clusters_ e)
  /\ In m (c_markers c)
  /\ forall c', In c' (clusters_ e) -> In m (c_markers c') -> c' = c.
Proof.
  intros e m R Hm Ha.
  pose proof (reachable_membershipInv _ _ _ _ _ e R m Hm) as I. rewrite Ha in I.
  unfold getMarkerCluster. rewrite Ha. cbn [negb].
  destruct (find (fun c => isMarkerAlreadyAdded c m) (clusters_ e)) as [c|] eqn:F.
  - apply find_some in F. destruct F as [Fc Fm]. unfold isMarkerAlreadyAdded in Fm.
    exists c. split; [reflexivity|]. split; [exact Fc|].
    split; [apply mem_In; exact Fm|].
    intros c' Hc' Mc'.
    exact (cnt_one_unique (clusters_ e) m c' c I Hc' (proj2 (mem_In _ _) Mc') Fc Fm).
  - exfalso. pose proof (find_none _ _ F) as N. unfold cnt in I.
    rewrite (filter_drop_In _ _ (clusters_ e)) in I.
    + cbn in I. discriminate.
    + intros c Hc. exact (N c Hc).
Qed.

End MarkerCluster.

(** ** [Cluster.removeMarker] *)

Lemma indexOf_app_last : forall m l, ~ In m l ->
  indexOf m (l ++ [m]) = Some (length l).
Proof.
  intros m. induction l as [|x l IH]; intros H; cbn.
  - rewrite Nat.eqb_refl. reflexivity.
  - destruct (Nat.eqb_spec x m) as [E|E]; [exfalso; apply H; left; exact E|].
    rewrite IH; [reflexivity|]. intros K. apply H. right. exact K.
Qed.

Lemma splice1_app_last : forall (l : list Marker) x,
  splice1 (length l) (l ++ [x]) = l.
Proof.
  induction l as [|a r IH]; intros x; cbn; [reflexivity|]. rewrite IH. reflexivity.
Qed.

Section ClusterRemove.

Variable bounds_extend : LatLngBounds -> LatLng -> LatLngBounds.
Variable getPosition : Marker -> LatLng.
Variable cfg : Config.
Variable v : MapView.

(** [Cluster.removeMarker] right after [Cluster.addMarker] of a marker
    that was not a member returns [true] and gives back the member list
    and the [isAdded] flags, the marker's flag being [false]; it leaves
    the center, the bounds, the icon's visibility and the markers' map as
    [addMarker] set them. *)
Theorem cluster_removeMarker_after_add : forall fl c m,
  ~ In m (c_markers c) ->
  let '(_, fl1, c1) := cluster_addMarker bounds_extend getPosition cfg v fl c m in
  let '(r, fl2, c2) := cluster_removeMarker fl1 c1 m in
  r = true /\ c_markers c2 = c_markers c
  /\ isAdded fl2 m = false
  /\ (forall x, x <> m -> isAdded fl2 x = isAdded fl x)
  /\ onMap fl2 = onMap fl1
  /\ c_center c2 = c_center c1 /\ c_bounds c2 = c_bounds c1
  /\ c_iconVisible c2 = c_iconVisible c1.
Proof.
  intros fl c m H.
  pose proof (addMarker_new bounds_extend getPosition cfg v fl c m (mem_false _ _ H)) as A.
  destruct (cluster_addMarker _ _ _ _ fl c m) as [[b1 fl1] c1].
  destruct A as (_ & A2 & _ & A4 & _).
  unfold cluster_removeMarker. rewrite A4, indexOf_app_last by exact H.
  cbn [c_markers c_center c_bounds c_iconVisible isAdded onMap].
  rewrite splice1_app_last.
  split; [reflexivity|].
  split; [reflexivity|].
  split; [unfold upd; rewrite Nat.eqb_refl; reflexivity|].
  split; [|auto].
  intros x Hx. unfold upd at 1. rewrite (proj2 (Nat.eqb_neq x m) Hx), A2.
  unfold upd. rewrite (proj2 (Nat.eqb_neq x m) Hx). reflexivity.
Qed.

End ClusterRemove.

(** ** [clearMarkers] *)

Section Clear.

Variable bounds_extend : LatLngBounds -> LatLng -> LatLngBounds.
Variable bounds_contains : LatLngBounds -> LatLng -> bool.
Variable getPosition : Marker -> LatLng.
Variable search : list Node -> Rect -> list Node.
Variable cfg : Config.

Lemma pass_no_markers : forall v e e', markers_ e = [] ->
  createClusters_ bounds_extend bounds_contains getPosition search cfg v e = Some e' ->
  e' = e.
Proof.
  intros v [ms cs rd t fl nx] e' Hm H. cbn in Hm. subst ms.
  unfold createClusters_ in H. cbn [ready_ markers_] in H.
  destruct rd; cbn [negb] in H.
  - destruct (mv_bounds v); [|discriminate]. cbn in H.
    injection H as <-. reflexivity.
  - injection H as <-. reflexivity.
Qed.

(** After [clearMarkers] (with or without the redraw), no marker is
    tracked, the index and [clusters_] are empty, and every marker that
    was tracked has [isAdded] false and is off the map. *)
Theorem clearMarkers_empties : forall v nodraw e e',
  clearMarkers bounds_extend bounds_contains getPosition search cfg v nodraw e
    = Some e' ->
  markers_ e' = [] /\ tree_ e' = [] /\ clusters_ e' = [] /\ ready_ e' = ready_ e
  /\ forall x, In x (markers_ e) ->
       isAdded (flags e') x = false /\ onMap (flags e') x = false.
Proof.
  intros v nodraw e e' H. unfold clearMarkers in H.
  match type of H with
  | context [mkEngine [] ?cs ?rd [] ?fl ?nx] => set (e2 := mkEngine [] cs rd [] fl nx) in H
  end.
  assert (E : e' = e2).
  { destruct nodraw; cbn [negb] in H.
    - injection H as <-. reflexivity.
    - exact (pass_no_markers v e2 e' eq_refl H). }
  subst e'. unfold e2. cbn.
  split; [reflexivity|].
  split; [reflexivity|]. split; [reflexivity|].
  split; [reflexivity|].
  intros x Hx. apply mem_In in Hx.
  change (fold_left (fun f m => upd f m false) (markers_ e) (isAdded (flags e)))
    with (setMap_each (isAdded (flags e)) (markers_ e) false).
  rewrite !setMap_each_spec, Hx. auto.
Qed.

End Clear.

(** ** The bounds given to [map.fitBounds] *)

Section BoundsFacts.

Variable bounds_extend : LatLngBounds -> LatLng -> LatLngBounds.
Variable bounds_contains : LatLngBounds -> LatLng -> bool.
Variable getPosition : Marker -> LatLng.
Variable emptyBounds : LatLngBounds.

(** The laws of [LatLngBounds] used: an extended bounds contains the
    added point and what it contained before, and the bounds of a single
    point contain it. *)
Hypothesis extend_contains : forall b p,
  bounds_contains (bounds_extend b p) p = true.
Hypothesis extend_mono : forall b p q,
  bounds_contains b q = true -> bounds_contains (bounds_extend b p) q = true.
Hypothesis point_contains : forall p, bounds_contains (mkBounds p p) p = true.

Lemma fold_extend_mono : forall ms b q, bounds_contains b q = true ->
  bounds_contains (fold_left (fun b m => bounds_extend b (getPosition m)) ms b) q
  = true.
Proof.
  induction ms as [|m r IH]; intros b q H; [exact H|].
  cbn [fold_left]. apply IH. apply extend_mono. exact H.
Qed.

Lemma fold_extend_contains : forall ms b m, In m ms ->
  bounds_contains (fold_left (fun b m => bounds_extend b (getPosition m)) ms b)
    (getPosition m) = true.
Proof.
  induction ms as [|a r IH]; intros b m H; [destruct H|].
  cbn [fold_left]. destruct H as [<-|H].
  - apply fold_extend_mono. apply extend_contains.
  - apply IH. exact H.
Qed.

(** A click on a cluster icon always zooms the map (the [zoomOnClick]
    field is truthy whatever the options), to bounds that contain the
    cluster's center and the position of each of its members. *)
Theorem triggerClusterClick_fits_cluster : forall options c,
  exists b,
    triggerClusterClick bounds_extend getPosition emptyBounds
      (constructorFields options) c = Some b
    /\ (forall m, In m (c_markers c) -> bounds_contains b (getPosition m) = true)
    /\ (forall ctr, c_center c = Some ctr -> bounds_contains b ctr = true).
Proof.
  intros options c. unfold triggerClusterClick.
  assert (Z : truthy (f_zoomOnClick (constructorFields options)) = true).
  { cbn [constructorFields f_zoomOnClick]. unfold js_or.
    destruct (truthy (get options "zoomOnClick")) eqn:T; [exact T|reflexivity]. }
  rewrite Z. eexists. split; [reflexivity|]. unfold cluster_getBounds. split.
  - intros m Hm. apply fold_extend_contains. exact Hm.
  - intros ctr Hc. rewrite Hc. apply fold_extend_mono. apply point_contains.
Qed.

(** [fitMapToMarkers] passes bounds that contain the position of every
    tracked marker. *)
Theorem fitMapToMarkers_contains : forall e m,
  In m (markers_ e) ->
  bounds_contains (fitMapToMarkers bounds_extend getPosition emptyBounds e)
    (getPosition m) = true.
Proof.
  intros e m H. unfold fitMapToMarkers. apply fold_extend_contains. exact H.
Qed.

End BoundsFacts.

(** ** The constructor *)

Section Constructor.

Variable bounds_extend : LatLngBounds -> LatLng -> LatLngBounds.
Variable bounds_contains : LatLngBounds -> LatLng -> bool.
Variable getPosition : Marker -> LatLng.
Variable search : list Node -> Rect -> list Node.
Variable cfg : Config.

(** [new MarkerClusterer(map, markers, options)] throws when [options] is
    [undefined] or [null]; otherwise it returns the fields of the options
    and a clusterer that is not ready, has no cluster, tracks the given
    markers in order, with their nodes in the index and [isAdded] false,
    and shows or hides no marker. *)
Theorem newMarkerClusterer_result : forall v markers options fl,
  (options = OptUndefined \/ options = OptNull ->
     newMarkerClusterer bounds_extend bounds_contains getPosition search cfg v
       markers options fl = None)
  /\ (options <> OptUndefined -> options <> OptNull ->
      let ms := match markers with Some ms => ms | None => [] end in
      let o := match options with OptObj o => o | _ => [] end in
      exists e,
        newMarkerClusterer bounds_extend bounds_contains getPosition search cfg v
          markers options fl = Some (constructorFields o, e)
        /\ markers_ e = ms /\ tree_ e = map (getMarkerNode getPosition) ms
        /\ clusters_ e = [] /\ ready_ e = false
        /\ onMap (flags e) = onMap fl
        /\ forall x, isAdded (flags e) x = if mem x ms then false else isAdded fl x).
Proof.
  intros v markers options fl. split.
  - intros [-> | ->]; reflexivity.
  - intros N1 N2.
    assert (G : forall o ms,
      exists e,
        (if negb (Nat.eqb (length ms) 0) then
           option_map (fun e => (constructorFields o, e))
             (addMarkers bounds_extend bounds_contains getPosition search cfg v
                ms false (initEngine fl))
         else Some (constructorFields o, initEngine fl))
        = Some (constructorFields o, e)
        /\ markers_ e = ms /\ tree_ e = map (getMarkerNode getPosition) ms
        /\ clusters_ e = [] /\ ready_ e = false
        /\ onMap (flags e) = onMap fl
        /\ forall x, isAdded (flags e) x = if mem x ms then false else isAdded fl x).
    { intros o ms. destruct (Nat.eqb_spec (length ms) 0) as [L|L]; cbn [negb].
      - apply length_zero_iff_nil in L. subst ms.
        exists (initEngine fl). cbn. repeat split.
      - destruct (pushes_spec ms (initEngine fl)) as (P1 & P2 & P3 & P4 & P5 & P6).
        set (e1 := fold_left pushMarkerTo_ ms (initEngine fl)) in *.
        set (e2 := setTree e1 (tree_ e1 ++ map (getMarkerNode getPosition) ms)).
        exists e2. unfold addMarkers. fold e1. fold e2. cbn [negb].
        assert (Q : createClusters_ bounds_extend bounds_contains getPosition search
                      cfg v e2 = Some e2).
        { unfold createClusters_. unfold e2 at 1. cbn [setTree ready_].
          rewrite P3. reflexivity. }
        rewrite Q. split; [reflexivity|].
        unfold e2, setTree. cbn [markers_ tree_ clusters_ ready_ flags].
        rewrite P1, P2, P3, P4, P5. cbn. split; [reflexivity|].
        repeat split. exact P6. }
    destruct options as [| | |o]; try congruence;
      destruct markers as [ms|]; cbn zeta; unfold newMarkerClusterer;
      try apply G; exists (initEngine fl); cbn; repeat split.
Qed.

End Constructor.

(** ** The further properties on the example *)

Lemma ex_extend_contains : forall b p,
  ex_bounds_contains (ex_bounds_extend b p) p = true.
Proof.
  intros b p. unfold ex_bounds_contains, ex_bounds_extend. cbn [sw ne lat lng].
  rewrite !andb_true_iff, !Qle_bool_iff.
  repeat split; [apply Q.le_min_r | apply Q.le_max_r | apply Q.le_min_r
                | apply Q.le_max_r].
Qed.

Lemma ex_extend_mono : forall b p q,
  ex_bounds_contains b q = true -> ex_bounds_contains (ex_bounds_extend b p) q = true.
Proof.
  intros b p q. unfold ex_bounds_contains, ex_bounds_extend. cbn [sw ne lat lng].
  rewrite !andb_true_iff, !Qle_bool_iff. intros [[[H1 H2] H3] H4].
  repeat split.
  - eapply Qle_trans; [apply Q.le_min_l | exact H1].
  - eapply Qle_trans; [exact H2 | apply Q.le_max_l].
  - eapply Qle_trans; [apply Q.le_min_l | exact H3].
  - eapply Qle_trans; [exact H4 | apply Q.le_max_l].
Qed.

Lemma ex_point_contains : forall p, ex_bounds_contains (mkBounds p p) p = true.
Proof.
  intros p. unfold ex_bounds_contains. cbn [sw ne].
  rewrite !andb_true_iff, !Qle_bool_iff. repeat split; apply Qle_refl.
Qed.

(** On the example clusterer (markers 1 and 5 added after [onAdd]),
    marker 1 is in a cluster and [getMarkerCluster] finds it. *)
Lemma getMarkerCluster_reachable_witness :
  exists c, getMarkerCluster ex_added 1%nat = Some c /\ In 1%nat (c_markers c).
Proof.
  destruct (getMarkerCluster_reachable ex_bounds_extend ex_bounds_contains
              ex_position ex_search ex_cfg2 ex_added 1%nat ex_added_reachable
              ltac:(vm_compute; auto) ltac:(vm_compute; reflexivity))
    as (c & H1 & _ & H3 & _).
  exists c. split; [exact H1|exact H3].
Defined.

(** Adding marker 3 to a cluster of markers 1 and 2 and removing it gives
    back the member list [1; 2]. *)
Lemma cluster_removeMarker_after_add_witness :
  let '(_, fl1, c1) :=
    cluster_addMarker ex_bounds_extend ex_position ex_cfg2 (ex_viewBox 5) ex_fl
      (mkCluster 0 [1; 2]%nat (Some (ex_position 1%nat)) None false None) 3%nat in
  let '(r, fl2, c2) := cluster_removeMarker fl1 c1 3%nat in
  r = true /\ c_markers c2 = [1; 2]%nat /\ isAdded fl2 3%nat = false.
Proof.
  pose proof (cluster_removeMarker_after_add ex_bounds_extend ex_position ex_cfg2
    (ex_viewBox 5) ex_fl
    (mkCluster 0 [1; 2]%nat (Some (ex_position 1%nat)) None false None) 3%nat
    ltac:(cbn; intuition discriminate)) as H.
  destruct (cluster_addMarker _ _ _ _ _ _ _) as [[b1 fl1] c1].
  destruct (cluster_removeMarker fl1 c1 3%nat) as [[r fl2] c2].
  destruct H as (H1 & H2 & H3 & _). auto.
Defined.

(** [removeMarkers([1])] on the example clusterer tracking 1 and 2 returns
    [true] and leaves marker 2. *)
Lemma removeMarkers_removes_witness :
  exists b e',
    removeMarkers ex_bounds_extend ex_bounds_contains ex_position ex_search
      ex_cfg2 (ex_viewBox 5) [1%nat] false (ex_engine true) = Some (b, e')
    /\ b = true /\ markers_ e' = [2%nat].
Proof.
  destruct (removeMarkers ex_bounds_extend ex_bounds_contains ex_position ex_search
              ex_cfg2 (ex_viewBox 5) [1%nat] false (ex_engine true))
    as [[b e']|] eqn:R; [|vm_compute in R; discriminate].
  destruct (removeMarkers_removes ex_bounds_extend ex_bounds_contains ex_position
              ex_search ex_cfg2 (ex_viewBox 5) [1%nat] false (ex_engine true) b e'
              ltac:(repeat constructor; cbn; intuition discriminate) R)
    as (H1 & H2 & _).
  exists b, e'. split; [reflexivity|]. rewrite H1, H2. split; vm_compute; reflexivity.
Defined.

(** [addMarkers([3; 4; 3])] then [removeMarkers([3; 4; 3])] on the example
    clusterer gives back markers 1 and 2 and returns [true]. *)
Lemma addMarkers_removeMarkers_roundtrip_witness :
  exists e1 b e2,
    addMarkers ex_bounds_extend ex_bounds_contains ex_position ex_search ex_cfg2
      (ex_viewBox 5) [3; 4; 3]%nat false (ex_engine true) = Some e1
    /\ removeMarkers ex_bounds_extend ex_bounds_contains ex_position ex_search
         ex_cfg2 (ex_viewBox 5) [3; 4; 3]%nat false e1 = Some (b, e2)
    /\ markers_ e2 = [1; 2]%nat /\ b = true.
Proof.
  destruct (addMarkers ex_bounds_extend ex_bounds_contains ex_position ex_search
              ex_cfg2 (ex_viewBox 5) [3; 4; 3]%nat false (ex_engine true))
    as [e1|] eqn:A; [|vm_compute in A; discriminate].
  destruct (removeMarkers ex_bounds_extend ex_bounds_contains ex_position ex_search
              ex_cfg2 (ex_viewBox 5) [3; 4; 3]%nat false e1)
    as [[b e2]|] eqn:R.
  2: { vm_compute in A. injection A as <-. vm_compute in R. discriminate. }
  destruct (addMarkers_removeMarkers_roundtrip ex_bounds_extend ex_bounds_contains
              ex_position ex_search ex_cfg2 (ex_viewBox 5) (ex_viewBox 5)
              [3; 4; 3]%nat false false (ex_engine true) e1 b e2
              ltac:(intros m Hm; destruct Hm as [<-|[<-|[<-|[]]]]; cbn;
                    intuition discriminate)
              ltac:(intros n Hn; vm_compute in Hn;
                    destruct Hn as [<-|[<-|[]]]; vm_compute; intuition discriminate)
              A R) as (H1 & _ & H3).
  exists e1, b, e2. split; [reflexivity || assumption|].
  split; [reflexivity || assumption|].
  rewrite H1, H3. split; reflexivity.
Defined.

(** [clearMarkers()] on the example clusterer empties it and leaves
    marker 1 with [isAdded] false and off the map. *)
Lemma clearMarkers_empties_witness :
  exists e', clearMarkers ex_bounds_extend ex_bounds_contains ex_position
               ex_search ex_cfg2 (ex_viewBox 5) false (ex_engine true) = Some e'
  /\ markers_ e' = [] /\ isAdded (flags e') 1%nat = false
  /\ onMap (flags e') 1%nat = false.
Proof.
  destruct (clearMarkers ex_bounds_extend ex_bounds_contains ex_position ex_search
              ex_cfg2 (ex_viewBox 5) false (ex_engine true))
    as [e'|] eqn:C; [|vm_compute in C; discriminate].
  destruct (clearMarkers_empties ex_bounds_extend ex_bounds_contains ex_position
              ex_search ex_cfg2 (ex_viewBox 5) false (ex_engine true) e' C)
    as (H1 & _ & _ & _ & H5).
  exists e'. split; [reflexivity|]. split; [exact H1|].
  apply H5. left. reflexivity.
Defined.

(** A click on the example cluster of markers 1 and 2 zooms to bounds
    containing marker 2, even with [zoomOnClick: false]. *)
Lemma triggerClusterClick_fits_cluster_witness :
  exists b,
    triggerClusterClick ex_bounds_extend ex_position ex_box
      (constructorFields [("zoomOnClick", JBool false)]) ex_shown_cluster = Some b
    /\ ex_bounds_contains b (ex_position 2%nat) = true.
Proof.
  destruct (triggerClusterClick_fits_cluster ex_bounds_extend ex_bounds_contains
              ex_position ex_box ex_extend_contains ex_extend_mono ex_point_contains
              [("zoomOnClick", JBool false)] ex_shown_cluster) as (b & H1 & H2 & _).
  exists b. split; [exact H1|]. apply H2. right. left. reflexivity.
Defined.

(** The bounds fitted to the example clusterer contain marker 2. *)
Lemma fitMapToMarkers_contains_witness :
  ex_bounds_contains (fitMapToMarkers ex_bounds_extend ex_position ex_box
                        (ex_engine true)) (ex_position 2%nat) = true.
Proof.
  exact (fitMapToMarkers_contains ex_bounds_extend ex_bounds_contains ex_position
           ex_box ex_extend_contains ex_extend_mono (ex_engine true) 2%nat
           ltac:(right; left; reflexivity)).
Defined.

(** Adding marker 1 a second time to the example clusterer, then removing
    it, leaves it tracked. *)
Lemma addMarker_twice_remove_once_witness :
  exists e1 b e2,
    addMarker ex_bounds_extend ex_bounds_contains ex_position ex_search ex_cfg2
      (ex_viewBox 5) 1%nat false (ex_engine true) = Some e1
    /\ removeMarker ex_bounds_extend ex_bounds_contains ex_position ex_search
         ex_cfg2 (ex_viewBox 5) 1%nat false e1 = Some (b, e2)
    /\ In 1%nat (markers_ e2) /\ b = true.
Proof.
  destruct (addMarker ex_bounds_extend ex_bounds_contains ex_position ex_search
              ex_cfg2 (ex_viewBox 5) 1%nat false (ex_engine true))
    as [e1|] eqn:A; [|vm_compute in A; discriminate].
  destruct (removeMarker ex_bounds_extend ex_bounds_contains ex_position ex_search
              ex_cfg2 (ex_viewBox 5) 1%nat false e1)
    as [[b e2]|] eqn:R.
  2: { vm_compute in A. injection A as <-. vm_compute in R. discriminate. }
  destruct (addMarker_twice_remove_once ex_bounds_extend ex_bounds_contains
              ex_position ex_search ex_cfg2 (ex_viewBox 5) (ex_viewBox 5) 1%nat
              false false (ex_engine true) e1 b e2
              ltac:(left; reflexivity) A R) as (_ & _ & H3 & _ & H5).
  exists e1, b, e2. split; [reflexivity || assumption|].
  split; [reflexivity || assumption|].
  split; [exact H3|]. rewrite H5. reflexivity.
Defined.

(** [new MarkerClusterer(map, [1, 2], null)] throws, and with [{}] it
    tracks markers 1 and 2. *)
Lemma newMarkerClusterer_result_witness :
  newMarkerClusterer ex_bounds_extend ex_bounds_contains ex_position ex_search
    ex_cfg2 (ex_viewBox 5) (Some [1; 2]%nat) OptNull ex_fl = None
  /\ exists e,
       newMarkerClusterer ex_bounds_extend ex_bounds_contains ex_position ex_search
         ex_cfg2 (ex_viewBox 5) (Some [1; 2]%nat) (OptObj []) ex_fl
       = Some (constructorFields [], e)
       /\ markers_ e = [1; 2]%nat.
Proof.
  destruct (newMarkerClusterer_result ex_bounds_extend ex_bounds_contains
              ex_position ex_search ex_cfg2 (ex_viewBox 5) (Some [1; 2]%nat)
              OptNull ex_fl) as [N _].
  destruct (newMarkerClusterer_result ex_bounds_extend ex_bounds_contains
              ex_position ex_search ex_cfg2 (ex_viewBox 5) (Some [1; 2]%nat)
              (OptObj []) ex_fl) as [_ S].
  split; [apply N; right; reflexivity|].
  destruct (S ltac:(discriminate) ltac:(discriminate)) as (e & H1 & H2 & _).
  exists e. split; [exact H1|exact H2].
Defined.
